(** * ScrapeSmart: crawler, chunker, extraction engine and table coercion

    A shallow embedding of [Main_project/scraper.py],
    [Main_project/AI_model.py] and [Main_project/data_preprocessor.py].

    Python [str] values are modelled as [string]; one [ascii] stands for one
    character, so the model covers text whose characters lie in the ASCII
    range.  Python [int]s are [Z] where the code computes with them and [nat]
    where they only count.  The browser, the HTML parser and the two
    generative-model transports are external: they appear as parameters. *)

From Stdlib Require Import ZArith String Ascii List Bool Lia DecimalString.
From stdpp Require Import gmap strings list.

Local Open Scope string_scope.
Local Open Scope list_scope.

(** ** Outcomes of a Python call *)

Inductive Exn : Type :=
| TypeError (msg : string)
| ValueError (msg : string)
| AttributeError (msg : string)
| UnboundLocalError (msg : string)
| ExternalError (msg : string).

(** [str(e)] *)
Definition exn_str (e : Exn) : string :=
  match e with
  | TypeError msg | ValueError msg | AttributeError msg
  | UnboundLocalError msg | ExternalError msg => msg
  end.

Inductive Outcome (A : Type) : Type :=
| Returned (a : A)
| Raised (e : Exn).
Arguments Returned {A} a.
Arguments Raised {A} e.

(** ** The part of Python's [str] the program uses *)

Module PyStr.

Definition LF : ascii := "010"%char.
Definition CR : ascii := "013"%char.
Definition nl : string := String LF EmptyString.

(** [str.isspace] on the ASCII range: TAB..CR, FS..US and the blank. *)
Definition is_space (c : ascii) : bool :=
  let n := nat_of_ascii c in
  ((9 <=? n)%nat && (n <=? 13)%nat) || ((28 <=? n)%nat && (n <=? 32)%nat).

(** The characters at which [str.splitlines] breaks (ASCII range). *)
Definition is_linebreak (c : ascii) : bool :=
  let n := nat_of_ascii c in
  ((10 <=? n)%nat && (n <=? 13)%nat) || ((28 <=? n)%nat && (n <=? 30)%nat).

Fixpoint mem (c : ascii) (chars : string) : bool :=
  match chars with
  | EmptyString => false
  | String d rest => Ascii.eqb c d || mem c rest
  end.

Fixpoint lstrip_by (p : ascii -> bool) (s : string) : string :=
  match s with
  | EmptyString => EmptyString
  | String c rest => if p c then lstrip_by p rest else s
  end.

Fixpoint rstrip_by (p : ascii -> bool) (s : string) : string :=
  match s with
  | EmptyString => EmptyString
  | String c rest =>
      match rstrip_by p rest with
      | EmptyString => if p c then EmptyString else String c EmptyString
      | kept => String c kept
      end
  end.

Definition strip_by (p : ascii -> bool) (s : string) : string :=
  rstrip_by p (lstrip_by p s).

(** [s.strip()] *)
Definition strip (s : string) : string := strip_by is_space s.

(** [s.strip(chars)] and [s.rstrip(chars)] *)
Definition strip_chars (chars s : string) : string :=
  strip_by (fun c => mem c chars) s.
Definition rstrip_chars (chars s : string) : string :=
  rstrip_by (fun c => mem c chars) s.

(** Truth value of a string: non-empty. *)
Definition truthy (s : string) : bool :=
  match s with EmptyString => false | String _ _ => true end.

(** [sub in s] *)
Fixpoint contains (sub s : string) : bool :=
  String.prefix sub s
  || match s with
     | EmptyString => false
     | String _ rest => contains sub rest
     end.

(** [s.startswith(p)] *)
Definition startswith (p s : string) : bool := String.prefix p s.

(** [s.split(sep)] for a one-character separator. *)
Fixpoint split (sep : ascii) (s : string) : list string :=
  match s with
  | EmptyString => [EmptyString]
  | String c rest =>
      if Ascii.eqb c sep then EmptyString :: split sep rest
      else match split sep rest with
           | [] => [String c EmptyString]
           | piece :: pieces => String c piece :: pieces
           end
  end.

(** [s.splitlines()]; the flag records that the previous character was a
    carriage return, so that CR LF counts as one break. *)
Fixpoint splitlines_from (after_cr : bool) (s : string) : list string :=
  match s with
  | EmptyString => []
  | String c rest =>
      if after_cr && Ascii.eqb c LF then splitlines_from false rest
      else if Ascii.eqb c CR then EmptyString :: splitlines_from true rest
      else if is_linebreak c then EmptyString :: splitlines_from false rest
      else match splitlines_from false rest with
           | [] => [String c EmptyString]
           | line :: lines => String c line :: lines
           end
  end.
Definition splitlines (s : string) : list string := splitlines_from false s.

(** [sep.join(pieces)] *)
Definition join (sep : string) (pieces : list string) : string :=
  String.concat sep pieces.

(** Index normalisation of a slice bound, as CPython's
    [PySlice_AdjustIndices] does for step 1. *)
Definition adjust_index (len i : Z) : Z :=
  if (i <? 0)%Z then Z.max 0 (i + len) else Z.min i len.

(** [s[lo:hi]] *)
Definition slice (s : string) (lo hi : Z) : string :=
  let len := Z.of_nat (String.length s) in
  let a := adjust_index len lo in
  let b := adjust_index len hi in
  String.substring (Z.to_nat a) (Z.to_nat (b - a)) s.

(** [range(start, stop, step)]: a zero step raises [ValueError]. *)
Definition range_length (start stop step : Z) : nat :=
  if (0 <? step)%Z then
    if (start <? stop)%Z then Z.to_nat ((stop - start - 1) / step + 1) else 0%nat
  else
    if (stop <? start)%Z then Z.to_nat ((start - stop - 1) / (- step) + 1) else 0%nat.

Definition range (start stop step : Z) : Outcome (list Z) :=
  if (step =? 0)%Z then Raised (ValueError "range() arg 3 must not be zero")
  else Returned (map (fun k : nat => (start + Z.of_nat k * step)%Z)
                     (seq 0 (range_length start stop step))).

End PyStr.

(** ** Chunker: [WebScraper.dom_content_length] *)

Module Chunker.

(** [[content[i : i + max_length] for i in range(0, len(content), max_length)]] *)
Definition dom_content_length (content : string) (max_length : Z)
  : Outcome (list string) :=
  match PyStr.range 0 (Z.of_nat (String.length content)) max_length with
  | Raised e => Raised e
  | Returned starts =>
      Returned (map (fun i => PyStr.slice content i (i + max_length)) starts)
  end.

Definition default_max_length : Z := 6000.

(** All elements of a list but the last one. *)
Definition all_but_last {A} (l : list A) : list A := removelast l.

End Chunker.

(** ** Extraction engine: [AI_model.Model] *)

Module Engine.
Import PyStr.

(** A persisted turn.  The Gemini dialect writes
    [{"role": r, "parts": [{"text": t}]}], the DeepSeek dialect
    [{"role": r, "content": c}]. *)
Inductive Turn : Type :=
| PartsTurn (role text : string)
| ContentTurn (role content : string).

Definition History : Type := list Turn.

(** An element of a DeepSeek message list: the code puts the system prompt
    there as a bare string, followed by the turns. *)
Inductive Message : Type :=
| Bare (text : string)
| Dict (turn : Turn).

Inductive Contents : Type :=
| Conversation (h : History)
| Prompt (text : string).

(** The two model transports. *)
Inductive Request : Type :=
| GenerateContent (model system_instruction : string) (contents : Contents)
                  (stream : bool)
| ChatCompletion (model api_key : string) (messages : list Message)
                 (stream : bool).

(** A streamed reply: the fragments that arrive, each with or without
    text, and the failure that ends the stream if there is one. *)
Record Reply : Type := { fragments : list (option string); failure : option Exn }.

(** The transport answers the [n]-th call of an extraction; a call that is
    not streamed yields the whole text or fails.  Building the client
    objects ([GenerativeModel], [OpenAI]) is taken not to fail. *)
Record Transport : Type := {
  stream_reply : nat -> Request -> Reply;
  whole_reply : nat -> Request -> Outcome string
}.

Record Model : Type := { model : string; api_key : string }.

(** What a call works on: the value of the variable [history] ([None] or
    the list object, which the caller shares), the model calls made so far
    and the messages shown through [st.error].  Updates of the streaming
    placeholder are not recorded. *)
Record Session : Type := {
  history : option History;
  calls : list Request;
  errors : list string
}.

Definition start (h : option History) : Session :=
  {| history := h; calls := []; errors := [] |}.

Definition M (A : Type) : Type := Session -> Outcome A * Session.

Definition ret {A} (a : A) : M A := fun s => (Returned a, s).

Definition bind {A B} (m : M A) (k : A -> M B) : M B :=
  fun s => match m s with
           | (Returned a, s') => k a s'
           | (Raised e, s') => (Raised e, s')
           end.

Definition raise {A} (e : Exn) : M A := fun s => (Raised e, s).

(** [try: body except Exception as e: handler e]; what the body did to
    the session before it failed stays done. *)
Definition try_except {A} (body : M A) (handler : Exn -> M A) : M A :=
  fun s => match body s with
           | (Returned a, s') => (Returned a, s')
           | (Raised e, s') => handler e s'
           end.

Notation "x <- m ;; k" := (bind m (fun x => k))
  (at level 90, m at level 89, right associativity).
Notation "m ;;; k" := (bind m (fun _ => k))
  (at level 90, right associativity).

Definition get_history : M (option History) :=
  fun s => (Returned (history s), s).

(** [if history is None: history = []] *)
Definition default_history : M unit :=
  fun s => (Returned tt,
            match history s with
            | Some _ => s
            | None => {| history := Some []; calls := calls s; errors := errors s |}
            end).

(** The list that [history] names; iterating or appending on [None] fails. *)
Definition history_list : M History :=
  fun s => match history s with
           | Some h => (Returned h, s)
           | None => (Raised (TypeError "'NoneType' object is not iterable"), s)
           end.

(** [history.append(turn)] *)
Definition history_append (turn : Turn) : M unit :=
  fun s => match history s with
           | Some h => (Returned tt,
                        {| history := Some (h ++ [turn]); calls := calls s;
                           errors := errors s |})
           | None => (Raised (AttributeError
                        "'NoneType' object has no attribute 'append'"), s)
           end.

(** [st.error(msg)] *)
Definition st_error (msg : string) : M unit :=
  fun s => (Returned tt,
            {| history := history s; calls := calls s; errors := errors s ++ [msg] |}).

Definition record_call (req : Request) : M nat :=
  fun s => (Returned (List.length (calls s)),
            {| history := history s; calls := calls s ++ [req]; errors := errors s |}).

(** The loop [for response_chunk in ...: if <has text>: full_response += text] *)
Definition accumulate (frags : list (option string)) : string :=
  fold_left (fun full_response frag =>
               match frag with
               | Some text => full_response +:+ text
               | None => full_response
               end) frags "".

(** A streamed model call read to its end. *)
Definition call_streaming (T : Transport) (req : Request) : M string :=
  n <- record_call req ;;
  let reply := stream_reply T n req in
  match failure reply with
  | Some e => raise e
  | None => ret (accumulate (fragments reply))
  end.

(** A model call that is not streamed. *)
Definition call_whole (T : Transport) (req : Request) : M string :=
  n <- record_call req ;;
  match whole_reply T n req with
  | Returned text => ret text
  | Raised e => raise e
  end.

(** [Model.construct_prompt] *)
Definition construct_prompt (description : string) : string :=
  "You are a precision data extraction assistant. Your sole purpose is to process web content according to specific criteria. "
  +:+ "Follow these directives precisely:" +:+ nl +:+ nl
  +:+ "1. **Information Extraction:** Extract ONLY data matching: " +:+ description +:+ "." +:+ nl
  +:+ "2. **Zero Commentary:** Never explain, justify, or add commentary to your output." +:+ nl
  +:+ "3. **Structured Format:** Present extracted data using Markdown formatting when appropriate (tables, lists)." +:+ nl
  +:+ "4. **Empty Results:** Return an empty string ('') if no matching information exists." +:+ nl
  +:+ "5. **Conversational Mode:** Only when NO content is provided for extraction, respond conversationally to user queries." +:+ nl
  +:+ "6. **Content Focus:** Focus exclusively on the content provided, not on external knowledge." +:+ nl
  +:+ "7. **Data Consolidation:** When processing multiple content chunks, merge related information into a single coherent output." +:+ nl
  +:+ "8. **Pattern Recognition:** Identify and extract recurring patterns in the data that match the description criteria.".

(** The system instruction of the call without content. *)
Definition conversational_instruction : string :=
  "You are tasked with extracting specific information from the given text content. "
  +:+ "If the user asks anything about web scraping, remind them to provide a link above. "
  +:+ "From now on, please refer to yourself as ScrapeSmart.".

(** [f"Text content: {chunk}\n\nDescription: {description}"] *)
Definition chunk_input (chunk description : string) : string :=
  "Text content: " +:+ chunk +:+ nl +:+ nl +:+ "Description: " +:+ description.

(** ["\n\n".join(chunks) + f"\n\nDescription: {description}"] *)
Definition joined_input (chunks : list string) (description : string) : string :=
  join (nl +:+ nl) chunks +:+ nl +:+ nl +:+ "Description: " +:+ description.

(** The value a [return text, history] statement builds. *)
Definition return_with_history (text : string) : M (string * option History) :=
  h <- get_history ;; ret (text, h).

(** *** [Model.chunk_with_gemini] *)

(** The [for chunk in chunks] loop.  [final_result] is assigned in the
    loop body only, so it is unbound ([None] here) until a chunk has been
    processed. *)
Fixpoint gemini_chunks (T : Transport) (m : Model) (system_prompt description : string)
    (chunks all_responses : list string) (final_result : option string)
  : M (option string) :=
  match chunks with
  | [] => ret final_result
  | chunk :: rest =>
      let full_input := chunk_input chunk description in
      history_append (PartsTurn "user" full_input) ;;;
      h <- history_list ;;
      full_response <-
        call_streaming T (GenerateContent (model m) system_prompt (Conversation h) true) ;;
      all_responses' <-
        (if truthy (strip full_response)
         then history_append (PartsTurn "model" (strip full_response)) ;;;
              ret (all_responses ++ [strip full_response])
         else ret all_responses) ;;
      gemini_chunks T m system_prompt description rest all_responses'
                    (Some (join nl all_responses'))
  end.

Definition chunk_with_gemini (T : Transport) (m : Model)
    (chunks : list string) (description : string)
  : M (string * option History) :=
  default_history ;;;
  let system_prompt := construct_prompt description in
  try_except
    (final_result <- gemini_chunks T m system_prompt description chunks [] None ;;
     match final_result with
     | Some text => return_with_history text
     | None => raise (UnboundLocalError
                 "cannot access local variable 'final_result' where it is not associated with a value")
     end)
    (fun e => st_error ("An error occurred: " +:+ exn_str e) ;;;
              return_with_history "").

(** *** [Model.chunk_with_deepseek] *)

Fixpoint deepseek_chunks (T : Transport) (m : Model) (system_prompt description : string)
    (chunks all_responses : list string) : M (list string) :=
  match chunks with
  | [] => ret all_responses
  | chunk :: rest =>
      let full_input := chunk_input chunk description in
      h <- history_list ;;
      let current_messages :=
        (Bare system_prompt :: map Dict h) ++ [Dict (ContentTurn "user" full_input)] in
      full_response <-
        call_streaming T (ChatCompletion (model m) (api_key m) current_messages true) ;;
      all_responses' <-
        (if truthy (strip full_response)
         then history_append (ContentTurn "user" full_input) ;;;
              history_append (ContentTurn "assistant" (strip full_response)) ;;;
              ret (all_responses ++ [strip full_response])
         else ret all_responses) ;;
      deepseek_chunks T m system_prompt description rest all_responses'
  end.

Definition chunk_with_deepseek (T : Transport) (m : Model)
    (chunks : list string) (description : string)
  : M (string * option History) :=
  try_except
    (default_history ;;;
     let system_prompt := construct_prompt description in
     all_responses <- deepseek_chunks T m system_prompt description chunks [] ;;
     return_with_history (join nl all_responses))
    (fun e => st_error ("Error occurred: " +:+ exn_str e) ;;;
              return_with_history "").

(** *** [Model.nochunk_with_gemini] *)

Definition nochunk_with_gemini (T : Transport) (m : Model)
    (chunks : list string) (description : string)
  : M (string * option History) :=
  default_history ;;;
  match chunks with
  | [] =>
      text <- call_whole T (GenerateContent (model m) conversational_instruction
                                            (Prompt description) false) ;;
      return_with_history text
  | _ :: _ =>
      let system_prompt := construct_prompt description in
      try_except
        (let full_input := joined_input chunks description in
         history_append (PartsTurn "user" full_input) ;;;
         h <- history_list ;;
         full_response <-
           call_streaming T (GenerateContent (model m) system_prompt (Conversation h) true) ;;
         (if truthy (strip full_response)
          then history_append (PartsTurn "model" (strip full_response))
          else ret tt) ;;;
         return_with_history (strip full_response))
        (fun e => st_error ("An error occurred: " +:+ exn_str e) ;;;
                  return_with_history "")
  end.

(** *** [Model.nochunk_with_deepseek] *)

Definition nochunk_with_deepseek (T : Transport) (m : Model)
    (chunks : list string) (description : string)
  : M (string * option History) :=
  try_except
    (default_history ;;;
     match chunks with
     | [] =>
         let system_message := ContentTurn "system" conversational_instruction in
         let messages := [Dict system_message; Dict (ContentTurn "user" description)] in
         text <- call_whole T (ChatCompletion (model m) (api_key m) messages false) ;;
         return_with_history text
     | _ :: _ =>
         let system_prompt := construct_prompt description in
         let full_input := joined_input chunks description in
         h <- history_list ;;
         let messages :=
           (Bare system_prompt :: map Dict h) ++ [Dict (ContentTurn "user" full_input)] in
         full_response <-
           call_streaming T (ChatCompletion (model m) (api_key m) messages true) ;;
         (if truthy (strip full_response)
          then history_append (ContentTurn "user" full_input) ;;;
               history_append (ContentTurn "assistant" (strip full_response))
          else ret tt) ;;;
         return_with_history (strip full_response)
     end)
    (fun e => st_error ("Error occurred: " +:+ exn_str e) ;;;
              return_with_history "").

(** *** The two entry points *)

(** Binding the positional arguments of a method call: [given] counts the
    bound [self] and every argument written at the call site; the four
    extraction methods take [self, chunks, description] and the optional
    [history]. *)
Definition call_method {A} (name : string) (given : nat) (body : M A) : M A :=
  if (3 <=? given)%nat && (given <=? 4)%nat then body
  else raise (TypeError ("Model." +:+ name
                         +:+ "() takes from 3 to 4 positional arguments but "
                         +:+ NilEmpty.string_of_uint (Nat.to_uint given)
                         +:+ " were given")).

(** [Model.process_with_chunking]: the branches call
    [self.chunk_with_...(self, chunks, description, history)], five
    positional arguments with the bound [self], and the value of the call
    is dropped: the method has no [return]. *)
Definition process_with_chunking (T : Transport) (m : Model)
    (chunks : list string) (description : string)
  : M (option (string * option History)) :=
  if contains "gemini" (model m) then
    call_method "chunk_with_gemini" 5 (chunk_with_gemini T m chunks description) ;;;
    ret None
  else if contains "deepseek" (model m) then
    call_method "chunk_with_deepseek" 5 (chunk_with_deepseek T m chunks description) ;;;
    ret None
  else ret None.

(** [Model.process_with_nochunking]: the branches return
    [self.nochunk_with_...(chunks, description, history)]. *)
Definition process_with_nochunking (T : Transport) (m : Model)
    (chunks : list string) (description : string)
  : M (option (string * option History)) :=
  if contains "gemini" (model m) then
    r <- call_method "nochunk_with_gemini" 4 (nochunk_with_gemini T m chunks description) ;;
    ret (Some r)
  else if contains "deepseek" (model m) then
    r <- call_method "nochunk_with_deepseek" 4 (nochunk_with_deepseek T m chunks description) ;;
    ret (Some r)
  else ret None.

End Engine.

(** ** Page extraction and crawler: [scraper.WebScraper] *)

Module Scraper.
Import PyStr.

(** The value bound to [urls]: a set of URLs, or (on a page without a body
    element, and on a fresh scraper) a string. *)
Inductive UrlsValue : Type :=
| UrlSet (members : gset string)
| UrlText (text : string).

(** What [scrape] hands back: the exception object it caught, or a pair. *)
Inductive ScrapeResult : Type :=
| GotException (e : Exn)
| GotPair (cleaned : string) (urls : UrlsValue).

(** [adv_options] *)
Record AdvOptions : Type := {
  max_urls : nat;
  img : bool;
  max_images : option Z;
  urls_scrape : bool
}.

(** What the crawl shows through [st.warning], [st.error], [st.success],
    the status line and the progress bar. *)
Inductive Notice : Type :=
| Scraping (number total : nat) (url : string)
| Progress (done total : nat)
| CloudflareDetected
| ScrapeFailed (url : string) (e : Exn)
| NothingScraped
| Finished (pages : nat).

(** [st.session_state]: an attribute that was never set is [None]. *)
Record SessionState : Type := {
  session_urls : option UrlsValue;
  dom_content : option string;
  image_urls : option (list string)
}.

Section WithBrowser.

(** The browser and the web behind it. *)
Variable World : Type.

(** [driver.get(url)] followed by [driver.page_source]: the page source, or
    the exception raised. *)
Variable driver_get : World -> string -> World * Outcome string.

(** The HTML parser on the page source: [None] when the document has no
    body element; otherwise the text [get_text] gives for the body once
    the script and style elements are removed and the target of every link
    is inserted after it in square brackets. *)
Variable body_text : string -> option string.

(** The [src] attribute of every [img] element of the page source, in
    document order ([None] where the attribute is missing). *)
Variable img_sources : string -> list (option string).

(** The order in which a set is iterated. *)
Variable iteration_order : gset string -> list string.

(** The attributes of a [WebScraper]. *)
Record WebScraper : Type := {
  world : World;
  html : string;
  urls : UrlsValue;
  cleaned_result : option string
}.

(** ["\n".join(line.strip() for line in cleaned.splitlines() if line.strip())] *)
Definition clean_lines (raw : string) : string :=
join nl (map strip (filter (fun line => truthy (strip line)) (splitlines raw))).

(** The loop that collects the lines naming a link. *)
Definition link_urls (cleaned : string) : gset string :=
fold_left (fun found link =>
             let target := strip_chars "[]" link in
             if contains "https" target || contains "http" target
             then found ∪ {[target]} else found)
          (splitlines cleaned) ∅.

(** [WebScraper.scrape] *)
Definition scrape (self : WebScraper) (url : string) : WebScraper * ScrapeResult :=
match driver_get (world self) url with
| (w, Raised e) =>
    ({| world := w; html := html self; urls := urls self;
        cleaned_result := cleaned_result self |},
     GotException e)
| (w, Returned source) =>
    match body_text source with
    | Some raw =>
        let cleaned := clean_lines raw in
        let found := UrlSet (link_urls cleaned) in
        ({| world := w; html := source; urls := found; cleaned_result := Some cleaned |},
         GotPair cleaned found)
    | None =>
        ({| world := w; html := source; urls := UrlText "";
            cleaned_result := Some "" |},
         GotPair "" (UrlText ""))
    end
end.

(** The three cases that make an image source absolute. *)
Definition resolve_src (url src : string) : string :=
if startswith "//" src then "https:" +:+ src
else if startswith "/" src then rstrip_chars "/" url +:+ src
else if negb (startswith "http://" src || startswith "https://" src)
     then rstrip_chars "/" url +:+ "/" +:+ src
else src.

(** The loop [for i, img in enumerate(images, start=1)]. *)
Fixpoint images_loop (url : string) (max_images : option Z) (i : Z)
  (images : list (option string)) (found : list string) : list string :=
match images with
| [] => found
| src :: rest =>
    let found' :=
      match src with
      | Some src => if truthy src then found ++ [resolve_src url src] else found
      | None => found
      end in
    if bool_decide (max_images = Some i) then found'
    else images_loop url max_images (i + 1) rest found'
end.

(** [WebScraper.extract_images] *)
Definition extract_images (self : WebScraper) (url : string) (max_images : option Z)
  : list string :=
images_loop url max_images 1 (img_sources (html self)) [].

(** [list(links)]: the members of a set in iteration order, the characters
    of a string. *)
Fixpoint characters (s : string) : list string :=
match s with
| EmptyString => []
| String c rest => String c EmptyString :: characters rest
end.

Definition list_of (links : UrlsValue) : list string :=
match links with
| UrlSet members => iteration_order members
| UrlText text => characters text
end.

(** The loop that appends the new URLs to the queue. *)
Fixpoint enqueue (visited_urls : gset string) (urls_to_scrape new_urls : list string)
  : list string :=
match new_urls with
| [] => urls_to_scrape
| url :: rest =>
    if bool_decide (url ∉ visited_urls) && bool_decide (url ∉ urls_to_scrape)
    then enqueue visited_urls (urls_to_scrape ++ [url]) rest
    else enqueue visited_urls urls_to_scrape rest
end.

(** The variables of [Multi_scrape] at the head of its loop, the scraper
    and the session state it works on, what it has shown, and (for
    stating properties) the URLs handed to [scrape], oldest first. *)
Record Crawl : Type := {
  scraper : WebScraper;
  session : SessionState;
  all_cleaned_text : string;
  visited_urls : gset string;
  urls_to_scrape : list string;
  scraped_count : nat;
  notices : list Notice;
  fetched : list string
}.

Definition initial (self : WebScraper) (st : SessionState) (start_url : string) : Crawl :=
{| scraper := self; session := st; all_cleaned_text := ""; visited_urls := ∅;
   urls_to_scrape := [start_url]; scraped_count := 0; notices := []; fetched := [] |}.

(** The loop body from [visited_urls.add(current_url)] on; [c] already has
    [current_url] popped. *)
Definition visit (opts : AdvOptions) (c : Crawl) (current_url : string) : Crawl :=
let visited := visited_urls c ∪ {[current_url]} in
let shown := notices c ++ [Scraping (scraped_count c + 1) (max_urls opts) current_url] in
match scrape (scraper c) current_url with
| (self, GotException e) =>
    (* unpacking the exception object into two names raises TypeError *)
    {| scraper := self; session := session c;
       all_cleaned_text := all_cleaned_text c;
       visited_urls := visited; urls_to_scrape := urls_to_scrape c;
       scraped_count := scraped_count c;
       notices := shown ++ [ScrapeFailed current_url
                              (TypeError "cannot unpack non-iterable exception object")];
       fetched := fetched c ++ [current_url] |}
| (self, GotPair cleaned_text links) =>
    let text := all_cleaned_text c +:+
                (if truthy (all_cleaned_text c) then nl +:+ nl +:+ cleaned_text
                 else cleaned_text) in
    let images := if img opts
                  then Some (extract_images self current_url (max_images opts))
                  else image_urls (session c) in
    let count := scraped_count c + 1 in
    {| scraper := self;
       session := {| session_urls := Some links; dom_content := Some text;
                     image_urls := images |};
       all_cleaned_text := text;
       visited_urls := visited;
       urls_to_scrape :=
         if urls_scrape opts && (count <? max_urls opts)%nat
         then enqueue visited (urls_to_scrape c) (list_of links)
         else urls_to_scrape c;
       scraped_count := count;
       notices := shown ++ [Progress count (max_urls opts)];
       fetched := fetched c ++ [current_url] |}
end.

(** One pass through the loop body either goes back to the loop head or
    returns from the function. *)
Inductive Pass : Type :=
| Continue (c : Crawl)
| Return (text : string) (c : Crawl).

Definition pop (c : Crawl) (rest : list string) : Crawl :=
{| scraper := scraper c; session := session c;
   all_cleaned_text := all_cleaned_text c; visited_urls := visited_urls c;
   urls_to_scrape := rest; scraped_count := scraped_count c;
   notices := notices c; fetched := fetched c |}.

Definition warn_cloudflare (c : Crawl) : Crawl :=
{| scraper := scraper c; session := session c;
   all_cleaned_text := all_cleaned_text c; visited_urls := visited_urls c;
   urls_to_scrape := urls_to_scrape c; scraped_count := scraped_count c;
   notices := notices c ++ [CloudflareDetected]; fetched := fetched c |}.

Definition loop_body (opts : AdvOptions) (c : Crawl) (current_url : string)
  (rest : list string) : Pass :=
let c := pop c rest in
if contains "cloudflare" current_url then
  Return (all_cleaned_text c) (warn_cloudflare c)
else if bool_decide (current_url ∈ visited_urls c)
        || negb (startswith "http://" current_url || startswith "https://" current_url)
then Continue c
else Continue (visit opts c current_url).

(** How the [while] loop ends. *)
Inductive Exit : Type :=
| Returned_text (text : string)
| Fell_through.

(** [while urls_to_scrape and scraped_count < adv_options["max_urls"]] *)
Fixpoint while_loop (fuel : nat) (opts : AdvOptions) (c : Crawl) : option (Exit * Crawl) :=
match urls_to_scrape c with
| [] => Some (Fell_through, c)
| current_url :: rest =>
    if (scraped_count c <? max_urls opts)%nat then
      match fuel with
      | O => None
      | S fuel' =>
          match loop_body opts c current_url rest with
          | Continue c' => while_loop fuel' opts c'
          | Return text c' => Some (Returned_text text, c')
          end
      end
    else Some (Fell_through, c)
end.

(** The statements after the loop: the final notice, then
    [self.cleaned_result = all_cleaned_text] and
    [self.urls = st.session_state.urls]; the function ends without a
    [return].  Reading the session's [urls] fails when it was never set. *)
Definition finish (c : Crawl) : Outcome (option string) * Crawl :=
let shown := notices c ++ [if truthy (all_cleaned_text c)
                           then Finished (scraped_count c) else NothingScraped] in
let closing (links : UrlsValue) :=
  {| scraper := {| world := world (scraper c); html := html (scraper c);
                   urls := links; cleaned_result := Some (all_cleaned_text c) |};
     session := session c; all_cleaned_text := all_cleaned_text c;
     visited_urls := visited_urls c; urls_to_scrape := urls_to_scrape c;
     scraped_count := scraped_count c; notices := shown; fetched := fetched c |} in
match session_urls (session c) with
| Some links => (Returned None, closing links)
| None => (Raised (AttributeError "st.session_state has no attribute 'urls'"),
           closing (urls (scraper c)))
end.

(** [WebScraper.Multi_scrape]; [None] when [fuel] passes through the loop
    do not suffice. *)
Definition Multi_scrape (fuel : nat) (self : WebScraper) (st : SessionState)
  (start_url : string) (opts : AdvOptions) : option (Outcome (option string) * Crawl) :=
match while_loop fuel opts (initial self st start_url) with
| None => None
| Some (Returned_text text, c) => Some (Returned (Some text), c)
| Some (Fell_through, c) => Some (finish c)
end.

End WithBrowser.

Arguments world {World} _.
Arguments html {World} _.
Arguments urls {World} _.
Arguments cleaned_result {World} _.
Arguments scraper {World} _.
Arguments session {World} _.
Arguments all_cleaned_text {World} _.
Arguments visited_urls {World} _.
Arguments urls_to_scrape {World} _.
Arguments scraped_count {World} _.
Arguments notices {World} _.
Arguments fetched {World} _.
Arguments Continue {World} _.
Arguments Return {World} _ _.

End Scraper.

(** ** Table coercion: [DataProcessor.Result_to_dataframe] *)

Module Table.
Import PyStr.

(** A row is a [dict] from column name to cell; the pairs are kept in
    insertion order, which is the column order of the table. *)
Definition Row : Type := list (string * string).

(** [d[key] = value] *)
Fixpoint dict_set (key value : string) (d : Row) : Row :=
match d with
| [] => [(key, value)]
| (k, v) :: rest =>
    if String.eqb k key then (k, value) :: rest
    else (k, v) :: dict_set key value rest
end.

(** [dict(zip(header, cols))] *)
Definition dict_zip (header cols : list string) : Row :=
fold_left (fun d kv => dict_set (fst kv) (snd kv) d) (combine header cols) [].

(** The table built from a list of rows; [pd.DataFrame()] is the table of
    no rows.  The final [convert_dtypes] changes column types only and is
    not modelled: cells stay text. *)
Definition DataFrame : Type := list Row.

(** [[c.strip() for c in line.strip("|").split("|")]] *)
Definition cells (line : string) : list string :=
map strip (split "|" (strip_chars "|" line)).

(** The test of the header search. *)
Definition is_header (line : string) : bool :=
truthy (strip line) && contains "|" line && negb (contains "---" line).

(** The loop [for i, line in enumerate(lines)] with its [break]. *)
Fixpoint find_header (i : nat) (lines : list string) : option nat :=
match lines with
| [] => None
| line :: rest => if is_header line then Some i else find_header (S i) rest
end.

(** The test that lets a line through to the cell split. *)
Definition is_data_line (line : string) : bool :=
negb (negb (truthy (strip line)) || negb (contains "|" line)).

(** The loop over the lines after the header and the separator. *)
Fixpoint collect_rows (header : list string) (lines : list string) (table : list Row)
  : list Row :=
match lines with
| [] => table
| line :: rest =>
    if negb (truthy (strip line)) || negb (contains "|" line)
    then collect_rows header rest table
    else
      let cols := cells line in
      if (List.length cols =? List.length header)%nat
      then collect_rows header rest (table ++ [dict_zip header cols])
      else collect_rows header rest table
end.

Definition table_lines (table : string) : list string := split LF (strip table).

Definition Result_to_dataframe (table : string) : DataFrame :=
if negb (truthy table) || negb (contains "|" table) then []
else
  let lines := table_lines table in
  match find_header 0 lines with
  | None => []
  | Some header_line =>
      let header := cells (nth header_line lines "") in
      collect_rows header (skipn (header_line + 2) lines) []
  end.

End Table.

(** ** Image download: [FileManager.save_images] *)

Module Files.
Import PyStr.

(** [s.endswith(suffix)] *)
Fixpoint endswith (suffix s : string) : bool :=
String.eqb suffix s
|| match s with
   | EmptyString => false
   | String _ rest => endswith suffix rest
   end.

(** The chain of tests that picks the file extension. *)
Definition extension_of (url : string) : string :=
if endswith ".png" url then "png"
else if endswith ".jpg" url then "jpg"
else if endswith ".jpeg" url then "jpeg"
else if endswith ".svg" url then "svg"
else "png".

(** What [requests.get] answers. *)
Record Response : Type := { status_code : Z; content : string }.

(** The network and the disk: the answer to the [i]-th request (or the
    exception it raises), and whether a directory can be made and a file
    opened for writing ([None] when it can). *)
Record Outside : Type := {
  requests_get : nat -> string -> Outcome Response;
  makedirs : string -> option Exn;
  open_write : string -> option Exn
}.

Inductive Report : Type :=
| DownloadFailed (i : nat) (status : Z)
| DownloadError (i : nat) (e : Exn).

(** The files written (name and content, oldest first), the requests made
    and what was shown. *)
Record Saved : Type := {
  files : list (string * string);
  requested : list string;
  reports : list Report
}.

(** [f"image{i}.{extension}"] *)
Definition image_name (i : nat) (extension : string) : string :=
"image" +:+ NilEmpty.string_of_uint (Nat.to_uint i) +:+ "." +:+ extension.

Definition add_report (r : Report) (sv : Saved) : Saved :=
{| files := files sv; requested := requested sv; reports := reports sv ++ [r] |}.

(** The loop [for i, url in enumerate(urls, start=1)].  A pass that raises
    goes to the [except] branch, which reports and continues, so it skips
    the test [i >= max_images]; with [max_images] equal to [None] that test
    itself raises [TypeError]. *)
Fixpoint save_loop (out : Outside) (path : string) (max_images : option Z)
  (i : nat) (urls : list string) (sv : Saved) : Saved :=
match urls with
| [] => sv
| url :: rest =>
    let sv := {| files := files sv; requested := requested sv ++ [url];
                 reports := reports sv |} in
    match requests_get out i url with
    | Raised e => save_loop out path max_images (S i) rest (add_report (DownloadError i e) sv)
    | Returned response =>
        let extension := extension_of url in
        let written :=
          if (status_code response =? 200)%Z then
            let name := path +:+ image_name i extension in
            match open_write out name with
            | Some e => Raised e
            | None => Returned {| files := files sv ++ [(name, content response)];
                                  requested := requested sv; reports := reports sv |}
            end
          else Returned (add_report (DownloadFailed i (status_code response)) sv) in
        match written with
        | Raised e =>
            save_loop out path max_images (S i) rest (add_report (DownloadError i e) sv)
        | Returned sv =>
            match max_images with
            | None =>
                save_loop out path max_images (S i) rest
                  (add_report (DownloadError i
                     (TypeError "'>=' not supported between instances of 'int' and 'NoneType'"))
                     sv)
            | Some cap =>
                if (cap <=? Z.of_nat i)%Z then sv
                else save_loop out path max_images (S i) rest sv
            end
        end
    end
end.

(** [FileManager.save_images]; making the directory is outside the [try]. *)
Definition save_images (out : Outside) (path : string) (urls : list string)
  (max_images : option Z) : Outcome unit * Saved :=
let nothing := {| files := []; requested := []; reports := [] |} in
match makedirs out path with
| Some e => (Raised e, nothing)
| None => (Returned tt, save_loop out path max_images 1 urls nothing)
end.

End Files.

(** ** The extraction request of the application: [ScrapeSmart.process_extraction_request] *)

Module App.
Import PyStr.

(** The fields of [ScrapingConfig] the request reads. *)
Record ScrapingConfig : Type := { chunking : bool; model : string }.

(** The entries of [st.session_state] the request reads or writes; an
    entry that is not there is [None].  [chat_history] is the list the
    extraction functions receive, and they append to that very list. *)
Record AppState : Type := {
  dom_content : option string;
  chat_history : option Engine.History;
  parsed_result : option string;
  parsed_description : option string
}.

Inductive Shown : Type :=
| UserMessage (text : string)
| AssistantMessage (text : string)
| ApiKeyWarning
| ParsingComplete
| ParsingError (msg : string).

(** What a request leaves behind: the value returned (or the exception
    that escapes), the session state, what the application showed and what
    the extraction did. *)
Record Run : Type := {
  result : Outcome (option Table.DataFrame);
  state : AppState;
  shown : list Shown;
  engine : Engine.Session
}.

(** The session state after the extraction functions have worked on the
    list in [chat_history] without the assignment being reached: the list
    has what they appended (a [None] entry stays [None]). *)
Definition with_history (st : AppState) (s : Engine.Session) : AppState :=
{| dom_content := dom_content st;
   chat_history := match chat_history st with
                   | Some _ => Engine.history s
                   | None => None
                   end;
   parsed_result := parsed_result st; parsed_description := parsed_description st |}.

(** The [except Exception as e] branch of the request. *)
Definition parsing_failed (st : AppState) (said : list Shown) (e : Exn)
  (s : Engine.Session) : Run :=
{| result := Returned None; state := st;
   shown := said ++ [ParsingError (exn_str e)]; engine := s |}.

(** [process_extraction_request]; [api_key] is empty when no key is set
    ([None] and the empty string are both false in [not self.api_key]). *)
Definition process_extraction_request (T : Engine.Transport) (config : ScrapingConfig)
  (api_key : string) (st : AppState) (parse_description : string) : Run :=
let m := {| Engine.model := model config; Engine.api_key := api_key |} in
match dom_content st with
| None =>
    (* output, _ = self.model.process_with_nochunking("", parse_description) *)
    let said := [UserMessage parse_description] in
    match Engine.process_with_nochunking T m [] parse_description (Engine.start None) with
    | (Raised e, s) =>
        {| result := Raised e; state := st; shown := said; engine := s |}
    | (Returned None, s) =>
        {| result := Raised (TypeError "cannot unpack non-iterable NoneType object");
           state := st; shown := said; engine := s |}
    | (Returned (Some (output, _)), s) =>
        {| result := Returned None; state := st;
           shown := said ++ [AssistantMessage output]; engine := s |}
    end
| Some content =>
    if negb (truthy api_key) then
      {| result := Returned None; state := st; shown := [ApiKeyWarning];
         engine := Engine.start (chat_history st) |}
    else
      let said := [UserMessage parse_description] in
      match Chunker.dom_content_length content Chunker.default_max_length with
      | Raised e => parsing_failed st said e (Engine.start (chat_history st))
      | Returned chunks =>
          let call := if chunking config then Engine.process_with_chunking
                      else Engine.process_with_nochunking in
          match call T m chunks parse_description (Engine.start (chat_history st)) with
          | (Raised e, s) =>
              parsing_failed (with_history st s) said e s
          | (Returned None, s) =>
              parsing_failed (with_history st s) said
                (TypeError "cannot unpack non-iterable NoneType object") s
          | (Returned (Some (text, h)), s) =>
              {| result := Returned (Some (Table.Result_to_dataframe text));
                 state := {| dom_content := dom_content st; chat_history := h;
                             parsed_result := Some text;
                             parsed_description := Some parse_description |};
                 shown := said ++ [ParsingComplete];
                 engine := s |}
          end
      end
end.

End App.

(** * Properties *)

(** ** Facts about the string primitives *)

Module PyStrFacts.
Import PyStr.

Fixpoint drop_chars (n : nat) (s : string) : string :=
  match n, s with
  | O, _ => s
  | S _, EmptyString => EmptyString
  | S n', String _ rest => drop_chars n' rest
  end.

Lemma substring_shift (n k m : nat) (s : string) :
  String.substring (n + k) m s = String.substring k m (drop_chars n s).
Proof.
  revert s; induction n as [|n IH]; intros s; simpl; [reflexivity|].
  destruct s as [|c rest]; [|apply IH].
  destruct k, m; reflexivity.
Qed.

Lemma append_nil_l (t : string) : "" +:+ t = t.
Proof. reflexivity. Qed.

Lemma append_cons_l (c : ascii) (s t : string) :
  String c s +:+ t = String c (s +:+ t).
Proof. reflexivity. Qed.

Lemma append_nil_r (s : string) : s +:+ "" = s.
Proof.
  induction s as [|c s IH]; [reflexivity|].
  rewrite append_cons_l, IH. reflexivity.
Qed.

Lemma append_assoc (s t u : string) : (s +:+ t) +:+ u = s +:+ (t +:+ u).
Proof.
  induction s as [|c s IH]; [reflexivity|].
  rewrite !append_cons_l, IH. reflexivity.
Qed.

Lemma length_append (s t : string) :
  String.length (s +:+ t) = String.length s + String.length t.
Proof.
  induction s as [|c s IH]; [reflexivity|].
  rewrite append_cons_l. simpl. rewrite IH. reflexivity.
Qed.

Lemma substring_take_drop (m : nat) (s : string) :
  String.substring 0 m s +:+ drop_chars m s = s.
Proof.
  revert s; induction m as [|m IH]; intros [|c rest]; simpl; try reflexivity.
  rewrite append_cons_l, IH. reflexivity.
Qed.

Lemma length_drop_chars (n : nat) (s : string) :
  String.length (drop_chars n s) = String.length s - n.
Proof.
  revert s; induction n as [|n IH]; intros [|c rest]; simpl; auto with arith.
Qed.

Lemma length_substring0 (m : nat) (s : string) :
  String.length (String.substring 0 m s) = Nat.min m (String.length s).
Proof.
  revert s; induction m as [|m IH]; intros [|c rest]; simpl; auto.
Qed.

Lemma length_substring (n m : nat) (s : string) :
  String.length (String.substring n m s) = Nat.min m (String.length s - n).
Proof.
  replace n with (n + 0) at 1 by lia.
  rewrite substring_shift, length_substring0, length_drop_chars. reflexivity.
Qed.

Lemma substring_truncate (n m : nat) (s : string) :
  String.substring n (Nat.min m (String.length s - n)) s = String.substring n m s.
Proof.
  revert n m; induction s as [|c rest IH]; intros n m.
  - destruct n, m; reflexivity.
  - destruct n as [|n]; simpl.
    + destruct m as [|m]; simpl; [reflexivity|].
      f_equal. specialize (IH 0 m). rewrite Nat.sub_0_r in IH. exact IH.
    + apply IH.
Qed.

Lemma join_empty_cons (x : string) (l : list string) :
  join "" (x :: l) = x +:+ join "" l.
Proof.
  unfold join. destruct l as [|y l]; simpl; [|reflexivity].
  symmetry. apply append_nil_r.
Qed.

(** A slice [s[i : i + w]] that starts inside the string is a substring. *)
Lemma slice_window (s : string) (i w : Z) :
  (0 <= i <= Z.of_nat (String.length s))%Z -> (0 <= w)%Z ->
  slice s i (i + w) = String.substring (Z.to_nat i) (Z.to_nat w) s.
Proof.
  intros Hi Hw. unfold slice, adjust_index.
  destruct (Z.ltb_spec i 0); [lia|].
  destruct (Z.ltb_spec (i + w) 0); [lia|].
  rewrite (Z.min_l i) by lia.
  rewrite <- (substring_truncate (Z.to_nat i) (Z.to_nat w)).
  f_equal. lia.
Qed.

Lemma range_forward (stop step : Z) :
  (0 < step)%Z -> (0 <= stop)%Z ->
  range 0 stop step =
    Returned (map (fun k : nat => (Z.of_nat k * step)%Z)
                  (seq 0 (if (0 <? stop)%Z then Z.to_nat ((stop - 1) / step + 1) else 0%nat))).
Proof.
  intros Hstep Hstop. unfold range, range_length.
  destruct (Z.eqb_spec step 0); [lia|].
  destruct (Z.ltb_spec 0 step); [|lia].
  rewrite Z.sub_0_r. reflexivity.
Qed.

(** *** Stripping and splitting *)

Lemma lstrip_by_head (p : ascii -> bool) (s : string) :
  match lstrip_by p s with
  | EmptyString => True
  | String c _ => p c = false
  end.
Proof.
  induction s as [|c s IH]; simpl; [exact I|].
  destruct (p c) eqn:Hc; [exact IH | exact Hc].
Qed.

Lemma lstrip_by_fixed (p : ascii -> bool) (c : ascii) (s : string) :
  p c = false -> lstrip_by p (String c s) = String c s.
Proof. intros Hc. simpl. rewrite Hc. reflexivity. Qed.

Lemma rstrip_by_head (p : ascii -> bool) (c : ascii) (s : string) :
  p c = false -> exists rest, rstrip_by p (String c s) = String c rest.
Proof.
  intros Hc. simpl. destruct (rstrip_by p s); [rewrite Hc|]; eauto.
Qed.

Lemma rstrip_by_idempotent (p : ascii -> bool) (s : string) :
  rstrip_by p (rstrip_by p s) = rstrip_by p s.
Proof.
  induction s as [|c s IH]; simpl; [reflexivity|].
  destruct (rstrip_by p s) as [|d kept] eqn:Hk.
  - destruct (p c) eqn:Hc; simpl; [reflexivity|]. rewrite Hc. reflexivity.
  - change (rstrip_by p (String c (String d kept))) with
      (match rstrip_by p (String d kept) with
       | EmptyString => if p c then EmptyString else String c EmptyString
       | kept' => String c kept'
       end).
    rewrite IH. reflexivity.
Qed.

Lemma strip_by_idempotent (p : ascii -> bool) (s : string) :
  strip_by p (strip_by p s) = strip_by p s.
Proof.
  unfold strip_by.
  pose proof (lstrip_by_head p s) as Hhead.
  destruct (lstrip_by p s) as [|c t] eqn:Ht; [reflexivity|].
  destruct (rstrip_by_head p c t Hhead) as (rest & Hr).
  rewrite Hr, (lstrip_by_fixed p c rest Hhead), <- Hr.
  apply rstrip_by_idempotent.
Qed.

Lemma strip_idempotent (s : string) : strip (strip s) = strip s.
Proof. apply strip_by_idempotent. Qed.

Lemma mem_lstrip_by (p : ascii -> bool) (c : ascii) (s : string) :
  mem c (lstrip_by p s) = true -> mem c s = true.
Proof.
  induction s as [|d s IH]; simpl; [auto|].
  destruct (p d); simpl; [|auto].
  intros H. rewrite (IH H). apply orb_true_r.
Qed.

Lemma mem_rstrip_by (p : ascii -> bool) (c : ascii) (s : string) :
  mem c (rstrip_by p s) = true -> mem c s = true.
Proof.
  induction s as [|d s IH]; simpl; [auto|].
  destruct (rstrip_by p s) as [|e kept] eqn:Hk.
  - destruct (p d); simpl; [discriminate|].
    rewrite orb_false_r. intros ->. reflexivity.
  - simpl. intros H. apply orb_true_iff in H as [H|H].
    + rewrite H. reflexivity.
    + simpl in IH. rewrite (IH H). apply orb_true_r.
Qed.

Lemma mem_strip_by (p : ascii -> bool) (c : ascii) (s : string) :
  mem c (strip_by p s) = true -> mem c s = true.
Proof. intros H. apply mem_lstrip_by with p, mem_rstrip_by with p. exact H. Qed.

(** No piece of a split contains the separator. *)
Lemma split_pieces_free (sep : ascii) (s : string) :
  Forall (fun piece => mem sep piece = false) (split sep s).
Proof.
  induction s as [|c s IH]; simpl.
  - repeat constructor.
  - destruct (Ascii.eqb_spec c sep) as [->|Hne].
    + constructor; [reflexivity | exact IH].
    + destruct (split sep s) as [|piece pieces].
      * constructor; [|constructor]. simpl.
        destruct (Ascii.eqb_spec sep c); [congruence | reflexivity].
      * inversion IH; subst. constructor; [|assumption]. simpl.
        destruct (Ascii.eqb_spec sep c); [congruence | assumption].
Qed.

Lemma split_nonempty (sep : ascii) (s : string) : split sep s <> [].
Proof.
  destruct s as [|c s]; simpl; [discriminate|].
  destruct (Ascii.eqb c sep); [discriminate|].
  destruct (split sep s); discriminate.
Qed.

(** Looking for a one-character string is looking for the character. *)
Lemma contains_char (c : ascii) (s : string) :
  contains (String c EmptyString) s = mem c s.
Proof.
  induction s as [|d s IH]; simpl; [reflexivity|].
  rewrite IH. destruct (ascii_dec c d) as [->|Hne].
  - rewrite Ascii.eqb_refl. destruct s; reflexivity.
  - destruct (Ascii.eqb_spec c d); [congruence | reflexivity].
Qed.

(** *** Prefixes, containment and lines *)

Lemma prefix_append_l (a b s : string) :
  String.prefix (a +:+ b) s = true -> String.prefix a s = true.
Proof.
  revert s; induction a as [|c a IH]; intros s H.
  - destruct s; reflexivity.
  - rewrite append_cons_l in H. destruct s as [|d s]; simpl in *; [discriminate|].
    destruct (ascii_dec c d); [apply IH; exact H | discriminate].
Qed.

Lemma contains_append_l (a b s : string) :
  contains (a +:+ b) s = true -> contains a s = true.
Proof.
  induction s as [|d s IH]; intros H.
  - destruct a as [|c a]; [reflexivity|].
    rewrite append_cons_l in H. simpl in H. discriminate.
  - change (contains (a +:+ b) (String d s))
      with (String.prefix (a +:+ b) (String d s) || contains (a +:+ b) s) in H.
    change (contains a (String d s)) with (String.prefix a (String d s) || contains a s).
    apply orb_true_iff in H as [H|H].
    + rewrite (prefix_append_l a b _ H). reflexivity.
    + rewrite (IH H). apply orb_true_r.
Qed.

Lemma prefix_of_append (a b : string) : String.prefix a (a +:+ b) = true.
Proof.
  induction a as [|c a IH]; [destruct b; reflexivity|].
  rewrite append_cons_l. simpl. destruct (ascii_dec c c); [exact IH | congruence].
Qed.

Lemma prefix_refl (s : string) : String.prefix s s = true.
Proof.
  induction s as [|c s IH]; [reflexivity|]. simpl.
  destruct (ascii_dec c c); [exact IH | congruence].
Qed.

Lemma contains_skip (b a s : string) :
  contains b s = true -> contains b (a +:+ s) = true.
Proof.
  intros H. induction a as [|c a IH]; [exact H|].
  rewrite append_cons_l.
  change (contains b (String c (a +:+ s)))
    with (String.prefix b (String c (a +:+ s)) || contains b (a +:+ s)).
  rewrite IH. apply orb_true_r.
Qed.

Lemma contains_of_prefix (b s : string) :
  String.prefix b s = true -> contains b s = true.
Proof.
  intros H. destruct s as [|d s].
  - change (contains b "") with (String.prefix b "" || false). rewrite H. reflexivity.
  - change (contains b (String d s)) with (String.prefix b (String d s) || contains b s).
    rewrite H. reflexivity.
Qed.

(** A text contains each of its pieces. *)
Lemma contains_middle (a b c : string) : contains b (a +:+ b +:+ c) = true.
Proof.
  induction a as [|d a IH].
  - rewrite append_nil_l. apply contains_of_prefix, prefix_of_append.
  - rewrite append_cons_l.
    change (contains b (String d (a +:+ b +:+ c)))
      with (String.prefix b (String d (a +:+ b +:+ c)) || contains b (a +:+ b +:+ c)).
    rewrite IH. apply orb_true_r.
Qed.

Definition no_linebreak (s : string) : Prop :=
forall c, mem c s = true -> is_linebreak c = false.

Lemma splitlines_pieces_free (s : string) :
  forall after_cr, Forall no_linebreak (splitlines_from after_cr s).
Proof.
  induction s as [|c s IH]; intros after_cr; simpl; [constructor|].
  destruct (after_cr && Ascii.eqb c LF); [apply IH|].
  destruct (Ascii.eqb c CR); [constructor; [intros d Hd; discriminate | apply IH]|].
  destruct (is_linebreak c) eqn:Hc; [constructor; [intros d Hd; discriminate | apply IH]|].
  specialize (IH false). destruct (splitlines_from false s) as [|line lines].
  - constructor; [|constructor]. intros d Hd. simpl in Hd.
    rewrite orb_false_r in Hd. apply Ascii.eqb_eq in Hd. subst. exact Hc.
  - inversion IH; subst. constructor; [|assumption].
    intros d Hd. simpl in Hd. apply orb_true_iff in Hd as [Hd|Hd]; [|auto].
    apply Ascii.eqb_eq in Hd. subst. exact Hc.
Qed.

Lemma splitlines_glue (line tail : string) :
  no_linebreak line ->
  splitlines_from false (line +:+ tail)
  = match splitlines_from false tail with
    | [] => if truthy line then [line] else []
    | first :: others => (line +:+ first) :: others
    end.
Proof.
  induction line as [|c line IH]; intros Hfree.
  - rewrite append_nil_l. destruct (splitlines_from false tail); reflexivity.
  - rewrite append_cons_l.
    assert (Hc : is_linebreak c = false).
    { apply Hfree. simpl. rewrite Ascii.eqb_refl. reflexivity. }
    assert (Hcr : Ascii.eqb c CR = false).
    { destruct (Ascii.eqb_spec c CR); [subst; discriminate | reflexivity]. }
    simpl. rewrite Hcr, Hc. rewrite IH.
    + destruct (splitlines_from false tail); [destruct line|]; reflexivity.
    + intros d Hd. apply Hfree. simpl. rewrite Hd. apply orb_true_r.
Qed.

(** Joining lines with a newline and splitting the result gives the lines
    back, when none is empty or holds a line break. *)
Lemma splitlines_join (lines : list string) :
  Forall (fun line => truthy line = true /\ no_linebreak line) lines ->
  splitlines (join nl lines) = lines.
Proof.
  unfold splitlines, join.
  induction lines as [|x lines IH]; intros Hall; [reflexivity|].
  inversion Hall as [|? ? [Hx Hfree] Hrest]; subst.
  destruct lines as [|y lines].
  - simpl. rewrite <- (append_nil_r x) at 1. rewrite splitlines_glue by exact Hfree.
    simpl. rewrite Hx. reflexivity.
  - change (String.concat nl (x :: y :: lines))
      with (x +:+ nl +:+ String.concat nl (y :: lines)).
    rewrite splitlines_glue by exact Hfree.
    change (nl +:+ String.concat nl (y :: lines))
      with (String LF (String.concat nl (y :: lines))).
    change (splitlines_from false (String LF (String.concat nl (y :: lines))))
      with ("" :: splitlines_from false (String.concat nl (y :: lines))).
    rewrite (IH Hrest), append_nil_r. reflexivity.
Qed.

End PyStrFacts.

(** ** Chunker *)

Module ChunkerFacts.
Import PyStr PyStrFacts Chunker.

(** Fixed-width windows at the offsets [0, w, 2w, ...]. *)
Definition windows (w : nat) (s : string) (count : nat) : list string :=
  map (fun k => String.substring (k * w) w s) (seq 0 count).

Lemma windows_succ (w : nat) (s : string) (count : nat) :
  windows w s (S count) =
    String.substring 0 w s :: windows w (drop_chars w s) count.
Proof.
  unfold windows. rewrite <- cons_seq, <- seq_shift. simpl.
  f_equal. rewrite List.map_map. apply map_ext. intros k. simpl.
  rewrite <- substring_shift. reflexivity.
Qed.

Lemma windows_cover (w : nat) (count : nat) (s : string) :
  String.length s <= count * w -> join "" (windows w s count) = s.
Proof.
  revert s; induction count as [|count IH]; intros s Hlen.
  - destruct s; [reflexivity | simpl in Hlen; lia].
  - rewrite windows_succ, join_empty_cons, IH.
    + apply substring_take_drop.
    + rewrite length_drop_chars. simpl in Hlen. lia.
Qed.

Lemma windows_full (w : nat) (count : nat) (s : string) (c : string) :
  count * w < String.length s + w ->
  In c (removelast (windows w s count)) -> String.length c = w.
Proof.
  revert s; induction count as [|count IH]; intros s Hlen Hin.
  - destruct Hin.
  - rewrite windows_succ in Hin.
    destruct count as [|count'].
    + destruct Hin.
    + remember (S count') as n.
      assert (Hne : windows w (drop_chars w s) n <> []).
      { subst n. rewrite windows_succ. discriminate. }
      simpl in Hin. destruct (windows w (drop_chars w s) n) eqn:E; [congruence|].
      rewrite <- E in Hin. destruct Hin as [<- | Hin].
      * rewrite length_substring0. subst n. simpl in Hlen. lia.
      * apply (IH (drop_chars w s)); [|exact Hin].
        rewrite length_drop_chars. subst n. simpl in Hlen |- *. lia.
Qed.

(** The code's list of chunks is the list of windows. *)
Lemma dom_content_length_windows (content : string) (max_length : Z) :
  (0 < max_length)%Z ->
  dom_content_length content max_length =
    Returned (windows (Z.to_nat max_length) content
                (if (0 <? Z.of_nat (String.length content))%Z
                 then Z.to_nat ((Z.of_nat (String.length content) - 1) / max_length + 1)
                 else 0%nat)).
Proof.
  intros HL. unfold dom_content_length.
  rewrite range_forward by lia.
  f_equal. unfold windows. rewrite List.map_map.
  set (n := Z.of_nat (String.length content)).
  assert (Hn : (0 <= n)%Z) by (unfold n; lia).
  apply map_ext_in. intros k Hk. apply in_seq in Hk.
  destruct (Z.ltb_spec 0 n) as [Hpos|Hz]; [|simpl in Hk; lia].
  assert (Hq : (0 <= (n - 1) / max_length)%Z) by (apply Z.div_pos; lia).
  assert (Hdiv : (max_length * ((n - 1) / max_length) <= n - 1)%Z)
    by (apply Z.mul_div_le; lia).
  assert (Hkb : (Z.of_nat k <= (n - 1) / max_length)%Z) by lia.
  assert (Hk0 : (0 <= Z.of_nat k * max_length <= n)%Z) by nia.
  rewrite slice_window by (fold n; lia).
  f_equal. lia.
Qed.

Lemma chunk_count_bounds (len : nat) (L : Z) :
  (0 < L)%Z ->
  let count := if (0 <? Z.of_nat len)%Z
               then Z.to_nat ((Z.of_nat len - 1) / L + 1) else 0%nat in
  len <= count * Z.to_nat L /\ count * Z.to_nat L < len + Z.to_nat L
  /\ (count = 0%nat <-> len = 0%nat).
Proof.
  intros HL count. subst count.
  destruct (Z.ltb_spec 0 (Z.of_nat len)) as [Hpos|Hz]; [|lia].
  set (q := ((Z.of_nat len - 1) / L)%Z).
  assert (Hq : (0 <= q)%Z) by (apply Z.div_pos; lia).
  assert (Hlo : (L * q <= Z.of_nat len - 1)%Z) by (apply Z.mul_div_le; lia).
  assert (Hhi : (Z.of_nat len - 1 < L * (q + 1))%Z).
  { unfold q. pose proof (Z.mul_succ_div_gt (Z.of_nat len - 1) L HL). lia. }
  assert (Hprod : Z.of_nat (Z.to_nat (q + 1) * Z.to_nat L) = ((q + 1) * L)%Z).
  { rewrite Nat2Z.inj_mul, !Z2Nat.id by lia. reflexivity. }
  repeat split; try lia.
Qed.

(** C4, as the code has it: for a positive width the call returns, the
    chunks concatenated in order give back the text, every chunk but the
    last is exactly [max_length] long, and the list of chunks is empty
    exactly when the text is empty (the empty text yields no chunk). *)
Theorem dom_content_length_partition (T : string) (L : Z) :
  (0 < L)%Z ->
  exists chunks,
    dom_content_length T L = Returned chunks
    /\ join "" chunks = T
    /\ (forall c, In c (all_but_last chunks) -> Z.of_nat (String.length c) = L)
    /\ (chunks = [] <-> T = "").
Proof.
  intros HL. eexists. split; [apply dom_content_length_windows; exact HL|].
  destruct (chunk_count_bounds (String.length T) L HL) as (Hcover & Hfull & Hnil).
  split; [|split].
  - apply windows_cover. exact Hcover.
  - intros c Hin. unfold all_but_last in Hin.
    apply windows_full in Hin; [lia | exact Hfull].
  - split.
    + intros Hw. apply (f_equal (@List.length string)) in Hw.
      unfold windows in Hw. rewrite length_map, length_seq in Hw. simpl in Hw.
      apply Hnil in Hw. destruct T; [reflexivity | discriminate].
    + intros ->. reflexivity.
Qed.

Lemma dom_content_length_partition_witness :
  exists chunks,
    dom_content_length "abcdefg" 3 = Returned chunks
    /\ join "" chunks = "abcdefg"
    /\ (forall c, In c (all_but_last chunks) -> Z.of_nat (String.length c) = 3%Z)
    /\ (chunks = [] <-> "abcdefg" = "").
Proof. apply (dom_content_length_partition "abcdefg" 3). lia. Defined.

(** C4 as stated fails on the empty text: the result is the empty list, not
    a list holding one empty chunk. *)
Lemma dom_content_length_empty_text :
  dom_content_length "" default_max_length = Returned []
  /\ dom_content_length "" default_max_length <> Returned [""].
Proof. split; [reflexivity | discriminate]. Qed.

Example dom_content_length_seven_by_three :
  dom_content_length "abcdefg" 3 = Returned ["abc"; "def"; "g"].
Proof. reflexivity. Qed.

Example dom_content_length_zero_width :
  dom_content_length "abc" 0 = Raised (ValueError "range() arg 3 must not be zero").
Proof. reflexivity. Qed.

(** *** Further properties of the chunker *)

Lemma substring_whole (m : nat) (s : string) :
  String.length s <= m -> String.substring 0 m s = s.
Proof.
  revert m; induction s as [|c s IH]; intros m Hlen.
  - destruct m; reflexivity.
  - destruct m as [|m]; simpl in *; [lia|]. f_equal. apply IH. lia.
Qed.

Lemma windows_sizes (w count : nat) (s : string) :
  0 < w -> count * w < String.length s + w ->
  Forall (fun c => 1 <= String.length c <= w) (windows w s count).
Proof.
  intros Hw Hfull. unfold windows. apply Forall_forall. intros c Hin.
  apply list_elem_of_In, in_map_iff in Hin as (k & <- & Hk).
  apply in_seq in Hk. rewrite length_substring.
  assert (k * w + w <= count * w) by nia. lia.
Qed.

(** A text that is not empty and not longer than [max_length] comes back as
    one chunk, the text itself. *)
Theorem dom_content_length_short_text (T : string) (L : Z) :
  T <> "" -> (Z.of_nat (String.length T) <= L)%Z ->
  dom_content_length T L = Returned [T].
Proof.
  intros Hne Hlen.
  assert (Hpos : (0 < Z.of_nat (String.length T))%Z).
  { destruct T; [congruence | simpl; lia]. }
  rewrite dom_content_length_windows by lia.
  destruct (Z.ltb_spec 0 (Z.of_nat (String.length T))); [|lia].
  rewrite Z.div_small by lia. simpl. unfold windows. simpl.
  rewrite substring_whole by lia. reflexivity.
Qed.

Lemma dom_content_length_short_text_witness :
  dom_content_length "abc" default_max_length = Returned ["abc"].
Proof.
  apply dom_content_length_short_text; [discriminate | vm_compute; discriminate].
Defined.

(** For a positive [max_length] the number of chunks is the length of the
    text divided by [max_length], rounded up; no chunk is empty and none is
    longer than [max_length]. *)
Theorem dom_content_length_chunk_sizes (T : string) (L : Z) :
  (0 < L)%Z ->
  exists chunks,
    dom_content_length T L = Returned chunks
    /\ Z.of_nat (List.length chunks) = ((Z.of_nat (String.length T) + L - 1) / L)%Z
    /\ Forall (fun c => (1 <= Z.of_nat (String.length c) <= L)%Z) chunks.
Proof.
  intros HL. eexists. split; [apply dom_content_length_windows; exact HL|].
  destruct (chunk_count_bounds (String.length T) L HL) as (Hcover & Hfull & Hnil).
  split.
  - unfold windows. rewrite length_map, length_seq.
    destruct (Z.ltb_spec 0 (Z.of_nat (String.length T))) as [Hpos|Hz].
    + replace (Z.of_nat (String.length T) + L - 1)%Z
        with ((Z.of_nat (String.length T) - 1) + 1 * L)%Z by lia.
      rewrite Z.div_add by lia.
      assert ((0 <= (Z.of_nat (String.length T) - 1) / L)%Z) by (apply Z.div_pos; lia).
      lia.
    + replace (Z.of_nat (String.length T)) with 0%Z by lia.
      rewrite Z.div_small by lia. reflexivity.
  - eapply Forall_impl; [apply windows_sizes; [lia | exact Hfull]|].
    intros c Hc. simpl in Hc. lia.
Qed.

Lemma dom_content_length_chunk_sizes_witness :
  exists chunks,
    dom_content_length "abcdefg" 3 = Returned chunks
    /\ Z.of_nat (List.length chunks) = ((Z.of_nat (String.length "abcdefg") + 3 - 1) / 3)%Z
    /\ Forall (fun c => (1 <= Z.of_nat (String.length c) <= 3)%Z) chunks.
Proof. apply (dom_content_length_chunk_sizes "abcdefg" 3). lia. Defined.

(** A width of zero makes the call fail with [ValueError]; a negative width
    returns no chunk at all, whatever the text. *)
Theorem dom_content_length_bad_width (T : string) (L : Z) :
  (L <= 0)%Z ->
  dom_content_length T L =
    if (L =? 0)%Z then Raised (ValueError "range() arg 3 must not be zero")
    else Returned [].
Proof.
  intros HL. unfold dom_content_length, range, range_length.
  destruct (Z.eqb_spec L 0); [reflexivity|].
  destruct (Z.ltb_spec 0 L); [lia|].
  destruct (Z.ltb_spec (Z.of_nat (String.length T)) 0); [lia|]. reflexivity.
Qed.

Lemma dom_content_length_bad_width_witness :
  dom_content_length "some text" (-5) = Returned [].
Proof. apply (dom_content_length_bad_width "some text" (-5)). lia. Defined.

End ChunkerFacts.

(** ** Extraction engine *)

Module EngineFacts.
Import PyStr Engine.

(** *** Specifications of monadic code *)

(** [triple P m Q E]: started in a session that satisfies [P], [m] either
    returns [a] in a session that satisfies [Q a] or raises [e] in a session
    that satisfies [E e]. *)
Definition triple {A} (P : Session -> Prop) (m : M A)
  (Q : A -> Session -> Prop) (E : Exn -> Session -> Prop) : Prop :=
forall s, P s ->
  match m s with
  | (Returned a, s') => Q a s'
  | (Raised e, s') => E e s'
  end.

Lemma triple_ret {A} (P : Session -> Prop) (a : A) (Q : A -> Session -> Prop) E :
  (forall s, P s -> Q a s) -> triple P (ret a) Q E.
Proof. intros H s Hs. simpl. auto. Qed.

Lemma triple_raise {A} (P : Session -> Prop) (e : Exn) (Q : A -> Session -> Prop)
  (E : Exn -> Session -> Prop) :
  (forall s, P s -> E e s) -> triple P (raise e) Q E.
Proof. intros H s Hs. simpl. auto. Qed.

Lemma triple_bind {A B} (P : Session -> Prop) (m : M A) (k : A -> M B)
  (R : A -> Session -> Prop) (Q : B -> Session -> Prop) E :
  triple P m R E -> (forall a, triple (R a) (k a) Q E) -> triple P (bind m k) Q E.
Proof.
  intros Hm Hk s Hs. unfold bind. specialize (Hm s Hs).
  destruct (m s) as [[a|e] s1]; [|exact Hm].
  apply (Hk a s1 Hm).
Qed.

Lemma triple_try {A} (P : Session -> Prop) (body : M A) (handler : Exn -> M A)
  (Q : A -> Session -> Prop) (E1 E : Exn -> Session -> Prop) :
  triple P body Q E1 -> (forall e, triple (E1 e) (handler e) Q E) ->
  triple P (try_except body handler) Q E.
Proof.
  intros Hb Hh s Hs. unfold try_except. specialize (Hb s Hs).
  destruct (body s) as [[a|e] s1]; [exact Hb|].
  apply (Hh e s1 Hb).
Qed.

Lemma triple_weaken {A} (P P' : Session -> Prop) (m : M A)
  (Q Q' : A -> Session -> Prop) (E E' : Exn -> Session -> Prop) :
  triple P' m Q' E' ->
  (forall s, P s -> P' s) -> (forall a s, Q' a s -> Q a s) ->
  (forall e s, E' e s -> E e s) -> triple P m Q E.
Proof.
  intros Hm HP HQ HE s Hs. specialize (Hm s (HP s Hs)).
  destruct (m s) as [[a|e] s1]; auto.
Qed.

Lemma triple_exn_mono {A} (P : Session -> Prop) (m : M A)
  (Q : A -> Session -> Prop) (E E' : Exn -> Session -> Prop) :
  triple P m Q E' -> (forall e s, E' e s -> E e s) -> triple P m Q E.
Proof.
  intros Hm HE s Hs. specialize (Hm s Hs).
  destruct (m s) as [[a|e] s1]; auto.
Qed.

Lemma triple_if {A} (b : bool) (P : Session -> Prop) (m1 m2 : M A) Q E :
  triple P m1 Q E -> triple P m2 Q E -> triple P (if b then m1 else m2) Q E.
Proof. destruct b; auto. Qed.

(** *** Failing model calls *)

Definition is_streamed (req : Request) : bool :=
match req with
| GenerateContent _ _ _ stream => stream
| ChatCompletion _ _ _ stream => stream
end.

(** The failure, if any, of the [n]-th model call. *)
Definition call_failure (T : Transport) (n : nat) (req : Request) : option Exn :=
if is_streamed req then failure (stream_reply T n req)
else match whole_reply T n req with
     | Raised e => Some e
     | Returned _ => None
     end.

Definition no_failure (T : Transport) (cs : list Request) : Prop :=
forall n req, cs !! n = Some req -> call_failure T n req = None.

Section Containment.
Variable T : Transport.
Variable h0 : History.
Variable errs0 : list string.

(** The history is a list that extends the initial one, nothing has been
    reported and no model call has failed. *)
Definition steady (s : Session) : Prop :=
(exists h, history s = Some h /\ h0 `prefix_of` h)
/\ errors s = errs0
/\ no_failure T (calls s).

(** As [steady], except that the last model call has failed with [e]. *)
Definition broken (e : Exn) (s : Session) : Prop :=
(exists h, history s = Some h /\ h0 `prefix_of` h)
/\ errors s = errs0
/\ exists cs req, calls s = cs ++ [req] /\ no_failure T cs
                  /\ call_failure T (List.length cs) req = Some e.

(** Where the body of a [try] may stop: after a failed call, or on an error
    of its own with no failed call behind it. *)
Definition halted (e : Exn) (s : Session) : Prop := broken e s \/ steady s.

Lemma steady_default_history (E : Exn -> Session -> Prop) :
  triple steady default_history (fun _ => steady) E.
Proof.
  intros s ((h & Hh & Hp) & He & Hc). simpl. rewrite Hh.
  repeat split; eauto.
Qed.

Lemma steady_history_list (E : Exn -> Session -> Prop) :
  triple steady history_list (fun _ => steady) E.
Proof.
  intros s ((h & Hh & Hp) & He & Hc). unfold history_list. rewrite Hh.
  repeat split; eauto.
Qed.

Lemma steady_history_append (turn : Turn) (E : Exn -> Session -> Prop) :
  triple steady (history_append turn) (fun _ => steady) E.
Proof.
  intros s ((h & Hh & Hp) & He & Hc). unfold history_append. rewrite Hh.
  repeat split; simpl; eauto.
  exists (h ++ [turn]). split; [reflexivity|].
  now apply prefix_app_r.
Qed.

Lemma no_failure_snoc (cs : list Request) (req : Request) :
  no_failure T cs -> call_failure T (List.length cs) req = None ->
  no_failure T (cs ++ [req]).
Proof.
  intros Hcs Hreq n r Hn.
  destruct (decide (n < List.length cs)) as [Hlt|Hge].
  - rewrite lookup_app_l in Hn by exact Hlt. eauto.
  - rewrite lookup_app_r in Hn by lia.
    destruct (n - List.length cs) as [|k] eqn:Hk; simpl in Hn; [|discriminate].
    inversion Hn; subst r.
    replace n with (List.length cs) by lia. exact Hreq.
Qed.

Lemma steady_call_streaming (req : Request) :
  is_streamed req = true ->
  triple steady (call_streaming T req) (fun _ => steady) halted.
Proof.
  intros Hreq s (Hh & He & Hc). unfold call_streaming, bind, record_call.
  destruct (failure (stream_reply T (List.length (calls s)) req)) as [e|] eqn:Hf; simpl.
  - left. repeat split; auto.
    exists (calls s), req. repeat split; auto.
    unfold call_failure. rewrite Hreq. exact Hf.
  - repeat split; auto.
    apply no_failure_snoc; auto.
    unfold call_failure. rewrite Hreq. exact Hf.
Qed.

Lemma steady_call_whole (req : Request) :
  is_streamed req = false ->
  triple steady (call_whole T req) (fun _ => steady) halted.
Proof.
  intros Hreq s (Hh & He & Hc). unfold call_whole, bind, record_call.
  destruct (whole_reply T (List.length (calls s)) req) as [text|e] eqn:Hf; simpl.
  - repeat split; auto.
    apply no_failure_snoc; auto.
    unfold call_failure. rewrite Hreq, Hf. reflexivity.
  - left. repeat split; auto.
    exists (calls s), req. repeat split; auto.
    unfold call_failure. rewrite Hreq, Hf. reflexivity.
Qed.

Lemma steady_gemini_chunks (m : Model) (system_prompt description : string)
  (chunks all_responses : list string) (final_result : option string) :
  triple steady
    (gemini_chunks T m system_prompt description chunks all_responses final_result)
    (fun _ => steady) halted.
Proof.
  revert all_responses final_result.
  induction chunks as [|chunk rest IH]; intros all_responses final_result; simpl.
  - apply triple_ret. auto.
  - eapply triple_bind; [apply steady_history_append|]. intros ?.
    eapply triple_bind; [apply steady_history_list|]. intros h.
    eapply triple_bind; [apply steady_call_streaming; reflexivity|]. intros full_response.
    eapply triple_bind with (R := fun _ => steady); [|intros; apply IH].
    apply triple_if.
    + eapply triple_bind; [apply steady_history_append|]. intros ?.
      apply triple_ret. auto.
    + apply triple_ret. auto.
Qed.

Lemma steady_deepseek_chunks (m : Model) (system_prompt description : string)
  (chunks all_responses : list string) :
  triple steady
    (deepseek_chunks T m system_prompt description chunks all_responses)
    (fun _ => steady) halted.
Proof.
  revert all_responses.
  induction chunks as [|chunk rest IH]; intros all_responses; simpl.
  - apply triple_ret. auto.
  - eapply triple_bind; [apply steady_history_list|]. intros h.
    eapply triple_bind; [apply steady_call_streaming; reflexivity|]. intros full_response.
    eapply triple_bind with (R := fun _ => steady); [|intros; apply IH].
    apply triple_if.
    + eapply triple_bind; [apply steady_history_append|]. intros ?.
      eapply triple_bind; [apply steady_history_append|]. intros ?.
      apply triple_ret. auto.
    + apply triple_ret. auto.
Qed.

(** What the caller gets back: a pair of a text and a history list that is
    the session's and extends the initial one; and if some model call has
    failed with [e], the text is empty and [label] followed by [str(e)] was
    reported. *)
Definition verdict (label : string) (r : string * option History) (s : Session) : Prop :=
exists text h, r = (text, Some h) /\ history s = Some h /\ h0 `prefix_of` h
  /\ forall n req e, calls s !! n = Some req -> call_failure T n req = Some e ->
       text = "" /\ errors s = errs0 ++ [label +:+ exn_str e].

Lemma steady_return_with_history (label text : string) (E : Exn -> Session -> Prop) :
  triple steady (return_with_history text) (verdict label) E.
Proof.
  intros s ((h & Hh & Hp) & He & Hc). unfold return_with_history, bind, get_history.
  simpl. exists text, h. rewrite Hh.
  split; [reflexivity|]. split; [reflexivity|]. split; [exact Hp|].
  intros n req e Hn Hf. rewrite (Hc n req Hn) in Hf. discriminate.
Qed.

Lemma handler_contains (label : string) (e : Exn) :
  triple (halted e)
    (st_error (label +:+ exn_str e) ;;; return_with_history "")
    (verdict label) (fun _ _ => False).
Proof.
  intros s Hs. unfold bind, st_error, return_with_history, bind, get_history. simpl.
  destruct Hs as [((h & Hh & Hp) & He & cs & req & Hcs & Hclean & Hfail)
                 | ((h & Hh & Hp) & He & Hc)].
  - exists "", h. rewrite Hh.
    split; [reflexivity|]. split; [reflexivity|]. split; [exact Hp|].
    intros n r e' Hn Hf. simpl in Hn |- *. rewrite Hcs in Hn.
    destruct (decide (n < List.length cs)) as [Hlt|Hge].
    { rewrite lookup_app_l in Hn by exact Hlt.
      rewrite (Hclean n r Hn) in Hf. discriminate. }
    rewrite lookup_app_r in Hn by lia.
    destruct (n - List.length cs) as [|k] eqn:Hk; simpl in Hn; [|discriminate].
    inversion Hn; subst r. replace n with (List.length cs) in Hf by lia.
    rewrite Hfail in Hf. inversion Hf; subst e'. rewrite He. split; reflexivity.
  - exists "", h. rewrite Hh.
    split; [reflexivity|]. split; [reflexivity|]. split; [exact Hp|].
    intros n r e' Hn Hf. rewrite (Hc n r Hn) in Hf. discriminate.
Qed.

Lemma chunk_with_gemini_contains (m : Model) (chunks : list string) (description : string) :
  triple steady (chunk_with_gemini T m chunks description)
         (verdict "An error occurred: ") (fun _ _ => False).
Proof.
  unfold chunk_with_gemini.
  eapply triple_bind; [apply steady_default_history|]. intros ?.
  eapply triple_try; [|intros e; apply handler_contains].
  eapply triple_bind; [apply steady_gemini_chunks|].
  intros [text|].
  - apply steady_return_with_history.
  - apply triple_raise. intros s Hs. right. exact Hs.
Qed.

Lemma chunk_with_deepseek_contains (m : Model) (chunks : list string) (description : string) :
  triple steady (chunk_with_deepseek T m chunks description)
         (verdict "Error occurred: ") (fun _ _ => False).
Proof.
  unfold chunk_with_deepseek.
  eapply triple_try; [|intros e; apply handler_contains].
  eapply triple_bind; [apply steady_default_history|]. intros ?.
  eapply triple_bind; [apply steady_deepseek_chunks|]. intros all_responses.
  apply steady_return_with_history.
Qed.

Lemma nochunk_with_gemini_contains (m : Model) (chunks : list string) (description : string) :
  chunks <> [] ->
  triple steady (nochunk_with_gemini T m chunks description)
         (verdict "An error occurred: ") (fun _ _ => False).
Proof.
  intros Hne. unfold nochunk_with_gemini.
  eapply triple_bind; [apply steady_default_history|]. intros ?.
  destruct chunks as [|chunk rest]; [congruence|].
  eapply triple_try; [|intros e; apply handler_contains].
  eapply triple_bind; [apply steady_history_append|]. intros ?.
  eapply triple_bind; [apply steady_history_list|]. intros h.
  eapply triple_bind; [apply steady_call_streaming; reflexivity|]. intros full_response.
  eapply triple_bind with (R := fun _ => steady).
  - apply triple_if; [apply steady_history_append | apply triple_ret; auto].
  - intros ?. apply steady_return_with_history.
Qed.

Lemma nochunk_with_deepseek_contains (m : Model) (chunks : list string) (description : string) :
  triple steady (nochunk_with_deepseek T m chunks description)
         (verdict "Error occurred: ") (fun _ _ => False).
Proof.
  unfold nochunk_with_deepseek.
  eapply triple_try; [|intros e; apply handler_contains].
  eapply triple_bind; [apply steady_default_history|]. intros ?.
  destruct chunks as [|chunk rest].
  - eapply triple_bind; [apply steady_call_whole; reflexivity|]. intros text.
    apply steady_return_with_history.
  - eapply triple_bind; [apply steady_history_list|]. intros h.
    eapply triple_bind; [apply steady_call_streaming; reflexivity|]. intros full_response.
    eapply triple_bind with (R := fun _ => steady).
    + apply triple_if; [|apply triple_ret; auto].
      eapply triple_bind; [apply steady_history_append|]. intros ?.
      apply steady_history_append.
    + intros ?. apply steady_return_with_history.
Qed.

End Containment.

(** *** Sample transports and models *)

Definition gemini_flash : Model := {| model := "gemini-2.0-flash"; api_key := "key" |}.
Definition deepseek_chat : Model :=
{| model := "deepseek/deepseek-chat-v3-0324:free"; api_key := "key" |}.
Definition other_model : Model := {| model := "gpt-4o"; api_key := "key" |}.

(** Every call is answered with [text], in one fragment. *)
Definition answering (text : string) : Transport :=
{| stream_reply := fun _ _ => {| fragments := [Some text]; failure := None |};
   whole_reply := fun _ _ => Returned text |}.

(** The first call is answered with [text]; every later call fails. *)
Definition failing_after_first (text : string) : Transport :=
{| stream_reply := fun n _ =>
     match n with
     | O => {| fragments := [Some text]; failure := None |}
     | S _ => {| fragments := []; failure := Some (ExternalError "503 unavailable") |}
     end;
   whole_reply := fun n _ =>
     match n with
     | O => Returned text
     | S _ => Raised (ExternalError "503 unavailable")
     end |}.

(** Every call fails. *)
Definition unreachable : Transport :=
{| stream_reply := fun _ _ =>
     {| fragments := []; failure := Some (ExternalError "503 unavailable") |};
   whole_reply := fun _ _ => Raised (ExternalError "503 unavailable") |}.

(** *** The entry points *)

(** C1, on the code: [process_with_chunking] never hands a pair back.  With
    a Gemini or DeepSeek model the inner call is made with one positional
    argument too many and raises [TypeError] before any model call; with
    any other model the method returns [None].  The session is untouched in
    every case. *)
Theorem process_with_chunking_yields_no_pair (T : Transport) (m : Model)
  (chunks : list string) (description : string) (s : Session) :
  process_with_chunking T m chunks description s =
    ((if contains "gemini" (model m)
      then Raised (TypeError
             "Model.chunk_with_gemini() takes from 3 to 4 positional arguments but 5 were given")
      else if contains "deepseek" (model m)
      then Raised (TypeError
             "Model.chunk_with_deepseek() takes from 3 to 4 positional arguments but 5 were given")
      else Returned None), s)
  /\ forall r, fst (process_with_chunking T m chunks description s) <> Returned (Some r).
Proof.
  unfold process_with_chunking.
  destruct (contains "gemini" (model m)); [|destruct (contains "deepseek" (model m))].
  all: split; [reflexivity | intros r; discriminate].
Qed.

Example process_with_chunking_gemini_raises :
  process_with_chunking (answering "| a |") gemini_flash ["page text"] "prices"
                        (start (Some []))
  = (Raised (TypeError
       "Model.chunk_with_gemini() takes from 3 to 4 positional arguments but 5 were given"),
     start (Some [])).
Proof. reflexivity. Qed.

(** The sibling entry point does return the pair of the inner call. *)
Example process_with_nochunking_gemini_pair :
  fst (process_with_nochunking (answering "| a |") gemini_flash [] "hello" (start (Some [])))
  = Returned (Some ("| a |", Some [])).
Proof. reflexivity. Qed.

(** C10: a model identifier that names neither dialect makes both entry
    points return [None] at once: the session comes back as it was, so no
    model call was made, the history is untouched and nothing was reported. *)
Theorem unknown_model_returns_none (T : Transport) (m : Model)
  (chunks : list string) (description : string) (s : Session) :
  contains "gemini" (model m) = false ->
  contains "deepseek" (model m) = false ->
  process_with_chunking T m chunks description s = (Returned None, s)
  /\ process_with_nochunking T m chunks description s = (Returned None, s).
Proof.
  intros Hg Hd. unfold process_with_chunking, process_with_nochunking.
  rewrite Hg, Hd. split; reflexivity.
Qed.

Lemma unknown_model_returns_none_witness :
  let s := start (Some [ContentTurn "user" "earlier question"]) in
  process_with_chunking unreachable other_model ["page text"] "prices" s = (Returned None, s)
  /\ process_with_nochunking unreachable other_model ["page text"] "prices" s
     = (Returned None, s).
Proof.
  apply (unknown_model_returns_none unreachable other_model ["page text"] "prices");
    reflexivity.
Defined.

(** *** Calls without content *)

(** C8: without content neither dialect appends a turn.  The session's
    history after the call is the one passed in (the empty list for [None]);
    when the model answers, the answer is returned with that history; when
    the model call fails, the DeepSeek path returns the empty text with that
    history and the Gemini path raises. *)
Theorem no_content_history_unchanged (T : Transport) (m : Model)
  (description : string) (given : option History) :
  let h := Some (default [] given) in
  let asked_gemini :=
    GenerateContent (model m) conversational_instruction (Prompt description) false in
  let asked_deepseek :=
    ChatCompletion (model m) (api_key m)
      [Dict (ContentTurn "system" conversational_instruction);
       Dict (ContentTurn "user" description)] false in
  nochunk_with_gemini T m [] description (start given)
    = (match whole_reply T 0 asked_gemini with
       | Returned text => Returned (text, h)
       | Raised e => Raised e
       end,
       {| history := h; calls := [asked_gemini]; errors := [] |})
  /\ nochunk_with_deepseek T m [] description (start given)
    = (match whole_reply T 0 asked_deepseek with
       | Returned text => Returned (text, h)
       | Raised e => Returned ("", h)
       end,
       {| history := h; calls := [asked_deepseek];
          errors := match whole_reply T 0 asked_deepseek with
                    | Returned _ => []
                    | Raised e => ["Error occurred: " +:+ exn_str e]
                    end |}).
Proof.
  intros h asked_gemini asked_deepseek. subst h. split.
  - unfold nochunk_with_gemini, call_whole, bind, record_call, default_history,
      return_with_history, get_history, bind, start; simpl.
    destruct given as [h|]; simpl; fold asked_gemini;
      destruct (whole_reply T 0 asked_gemini); reflexivity.
  - unfold nochunk_with_deepseek, try_except, call_whole, bind, record_call,
      default_history, return_with_history, get_history, bind, st_error, start; simpl.
    destruct given as [h|]; simpl; fold asked_deepseek;
      destruct (whole_reply T 0 asked_deepseek); reflexivity.
Qed.

(** *** Failures of model calls *)

(** The caller of an extraction function gets a pair back, never an
    exception; see [verdict] for what the pair holds. *)
Definition contained (T : Transport) (label : string) (given : option History)
  (r : Outcome (string * option History) * Session) : Prop :=
match r with
| (Returned result, s) => verdict T (default [] given) [] label result s
| (Raised _, _) => False
end.

Lemma steady_start (T : Transport) (h : History) : steady T h [] (start (Some h)).
Proof.
  repeat split.
  - exists h. split; reflexivity.
  - intros n req Hn. destruct n; discriminate.
Qed.

Lemma contained_of_triple (T : Transport) (label : string) (given : option History)
  (f : M (string * option History)) :
  triple (steady T (default [] given) []) f
         (verdict T (default [] given) [] label) (fun _ _ => False) ->
  f (start given) = f (start (Some (default [] given))) ->
  contained T label given (f (start given)).
Proof.
  intros Hf Heq. rewrite Heq. unfold contained.
  specialize (Hf (start (Some (default [] given))) (steady_start T _)).
  destruct (f (start (Some (default [] given)))) as [[result|e] s]; exact Hf.
Qed.

(** C3, as the code has it by design.  In chunked extraction of either
    dialect, in DeepSeek extraction without chunking, and in Gemini
    extraction without chunking when there is content, no exception leaves
    the function: it returns a text and the history list, which extends the
    history passed in; and if a model call has failed with [e], the text
    returned is empty (what earlier chunks produced is not returned) and the
    dialect's message with [str(e)] has been reported. *)
Theorem model_failures_contained (T : Transport) (m : Model)
  (chunks : list string) (description : string) (given : option History) :
  contained T "An error occurred: " given
            (chunk_with_gemini T m chunks description (start given))
  /\ contained T "Error occurred: " given
            (chunk_with_deepseek T m chunks description (start given))
  /\ contained T "Error occurred: " given
            (nochunk_with_deepseek T m chunks description (start given))
  /\ (chunks <> [] ->
      contained T "An error occurred: " given
                (nochunk_with_gemini T m chunks description (start given))).
Proof.
  repeat split.
  - apply contained_of_triple; [apply chunk_with_gemini_contains|].
    destruct given; reflexivity.
  - apply contained_of_triple; [apply chunk_with_deepseek_contains|].
    destruct given; reflexivity.
  - apply contained_of_triple; [apply nochunk_with_deepseek_contains|].
    destruct given; reflexivity.
  - intros Hne. apply contained_of_triple;
      [apply nochunk_with_gemini_contains; exact Hne|].
    destruct given; reflexivity.
Qed.

Lemma model_failures_contained_witness :
  contained unreachable "An error occurred: " None
            (nochunk_with_gemini unreachable gemini_flash ["page text"] "prices" (start None)).
Proof.
  apply (model_failures_contained unreachable gemini_flash ["page text"] "prices" None).
  discriminate.
Defined.

(** C3 as stated fails twice.  When the second chunk's call fails, the
    answer to the first chunk is in the history but the text returned is
    empty; and a Gemini call without content that fails raises out of the
    function. *)
Lemma model_failure_loses_text_or_escapes :
  fst (chunk_with_deepseek (failing_after_first "| a | b |") deepseek_chat
         ["first"; "second"] "cells" (start (Some [])))
  = Returned ("", Some [ContentTurn "user" (chunk_input "first" "cells");
                        ContentTurn "assistant" "| a | b |"])
  /\ fst (nochunk_with_gemini unreachable gemini_flash [] "hello" (start (Some [])))
     = Raised (ExternalError "503 unavailable").
Proof. split; reflexivity. Qed.

Example failed_call_is_reported :
  errors (snd (chunk_with_deepseek (failing_after_first "| a | b |") deepseek_chat
                 ["first"; "second"] "cells" (start (Some []))))
  = ["Error occurred: 503 unavailable"].
Proof. reflexivity. Qed.

(** *** Growth of the history in chunked extraction *)

(** DeepSeek: two turns for every answer kept, nothing else. *)
Lemma deepseek_chunks_growth (T : Transport) (m : Model) (system_prompt description : string)
  (chunks : list string) :
  forall (all_responses : list string) (s : Session) (h : History)
         (kept : list string) (s' : Session),
    history s = Some h ->
    deepseek_chunks T m system_prompt description chunks all_responses s
      = (Returned kept, s') ->
    exists h', history s' = Some h'
      /\ List.length h' + 2 * List.length all_responses
         = List.length h + 2 * List.length kept.
Proof.
  induction chunks as [|chunk rest IH]; intros all_responses s h kept s' Hh Hrun.
  - simpl in Hrun. inversion Hrun; subst. exists h. split; [exact Hh | lia].
  - simpl in Hrun. unfold bind, history_list, call_streaming, bind, record_call in Hrun.
    rewrite Hh in Hrun. simpl in Hrun.
    destruct (failure _) as [e|]; [discriminate|]. simpl in Hrun.
    destruct (truthy _).
    + unfold history_append in Hrun. simpl in Hrun. rewrite Hh in Hrun. simpl in Hrun.
      eapply IH in Hrun; [|reflexivity].
      destruct Hrun as (h' & Hh' & Hlen). exists h'. split; [exact Hh'|].
      rewrite !length_app in Hlen. simpl in Hlen. lia.
    + simpl in Hrun. eapply IH in Hrun; [|simpl; exact Hh].
      exact Hrun.
Qed.

(** Gemini: the user turn is appended before the model is called, so every
    chunk adds one turn, and one more when its answer is kept. *)
Lemma gemini_chunk_step (T : Transport) (m : Model) (system_prompt description chunk : string)
  (rest all_responses : list string) (final_result : option string)
  (s : Session) (h : History) :
  history s = Some h ->
  let asked := h ++ [PartsTurn "user" (chunk_input chunk description)] in
  let req := GenerateContent (model m) system_prompt (Conversation asked) true in
  let reply := stream_reply T (List.length (calls s)) req in
  let answer := strip (accumulate (fragments reply)) in
  failure reply = None ->
  gemini_chunks T m system_prompt description (chunk :: rest) all_responses final_result s
  = let kept := if truthy answer then all_responses ++ [answer] else all_responses in
    gemini_chunks T m system_prompt description rest kept (Some (join nl kept))
      {| history := Some (if truthy answer then asked ++ [PartsTurn "model" answer]
                          else asked);
         calls := calls s ++ [req]; errors := errors s |}.
Proof.
  intros Hh asked req reply answer Hok. simpl.
  unfold bind, history_append, history_list, call_streaming, bind, record_call.
  rewrite Hh. simpl. fold asked. fold req. fold reply. rewrite Hok. simpl.
  fold answer. destruct (truthy answer); reflexivity.
Qed.

(** C2, on the code: a Gemini chunk whose trimmed answer is empty still
    leaves its user turn in the history, which grows by one and not by zero;
    the DeepSeek path leaves the history as it was. *)
Theorem gemini_blank_answer_keeps_user_turn (m : Model) (chunk description : string)
  (h : History) :
  let h' := h ++ [PartsTurn "user" (chunk_input chunk description)] in
  fst (chunk_with_gemini (answering "  ") m [chunk] description (start (Some h)))
    = Returned ("", Some h')
  /\ List.length h' = List.length h + 1
  /\ fst (chunk_with_deepseek (answering "  ") m [chunk] description (start (Some h)))
    = Returned ("", Some h).
Proof.
  split; [reflexivity|]. split; [|reflexivity].
  rewrite length_app. reflexivity.
Qed.

(** Over a whole run without a failed call, every Gemini chunk adds at least
    its user turn and at most one model turn besides. *)
Lemma gemini_chunks_growth (T : Transport) (m : Model) (system_prompt description : string)
  (chunks : list string) :
  forall (all_responses : list string) (final_result : option string)
         (s : Session) (h : History) (r : option string) (s' : Session),
    history s = Some h ->
    gemini_chunks T m system_prompt description chunks all_responses final_result s
      = (Returned r, s') ->
    exists h', history s' = Some h'
      /\ List.length h + List.length chunks <= List.length h'
      /\ List.length h' <= List.length h + 2 * List.length chunks.
Proof.
  induction chunks as [|chunk rest IH];
    intros all_responses final_result s h r s' Hh Hrun.
  - simpl in Hrun. inversion Hrun; subst. exists h. simpl. split; [exact Hh | lia].
  - destruct (failure (stream_reply T (List.length (calls s))
                (GenerateContent (model m) system_prompt
                   (Conversation (h ++ [PartsTurn "user" (chunk_input chunk description)]))
                   true))) as [e|] eqn:Hf.
    + simpl in Hrun.
      unfold bind, history_append, history_list, call_streaming, bind, record_call in Hrun.
      rewrite Hh in Hrun. simpl in Hrun. rewrite Hf in Hrun. discriminate.
    + rewrite (gemini_chunk_step T m system_prompt description chunk rest
                 all_responses final_result s h Hh Hf) in Hrun.
      cbv zeta in Hrun. eapply IH in Hrun; [|reflexivity].
      destruct Hrun as (h' & Hh' & Hlo & Hhi). exists h'. split; [exact Hh'|].
      destruct (truthy _); rewrite ?length_app in Hlo, Hhi; simpl in *; lia.
Qed.

Example gemini_kept_answer_adds_two_turns :
  fst (chunk_with_gemini (answering " 42 ") gemini_flash ["page"] "the answer" (start (Some [])))
  = Returned ("42", Some [PartsTurn "user" (chunk_input "page" "the answer");
                          PartsTurn "model" "42"]).
Proof. reflexivity. Qed.

(** *** Further properties of the extraction functions *)

(** Chunked extraction of an empty list of chunks makes no model call and
    keeps the history.  The DeepSeek path returns the empty text; the Gemini
    path does too, but only after reporting that [final_result] was never
    assigned. *)
Theorem chunked_without_chunks (T : Transport) (m : Model) (description : string)
  (given : option History) :
  let h := Some (default [] given) in
  chunk_with_gemini T m [] description (start given)
    = (Returned ("", h),
       {| history := h; calls := [];
          errors := ["An error occurred: cannot access local variable 'final_result' where it is not associated with a value"] |})
  /\ chunk_with_deepseek T m [] description (start given)
    = (Returned ("", h), {| history := h; calls := []; errors := [] |}).
Proof. destruct given; split; reflexivity. Qed.

(** Extraction of content without chunking, when the model call succeeds:
    one streamed call is made and the trimmed answer is returned.  The
    Gemini path has then added the user turn, and the model turn if the
    answer is not empty; the DeepSeek path has added both turns or, for an
    empty answer, none. *)
Theorem nochunk_with_content (T : Transport) (m : Model) (chunks : list string)
  (description : string) (given : option History) :
  chunks <> [] ->
  let h := default [] given in
  let full_input := joined_input chunks description in
  let gemini_req :=
    GenerateContent (model m) (construct_prompt description)
                    (Conversation (h ++ [PartsTurn "user" full_input])) true in
  let deepseek_req :=
    ChatCompletion (model m) (api_key m)
      ((Bare (construct_prompt description) :: map Dict h)
       ++ [Dict (ContentTurn "user" full_input)]) true in
  let answer req := strip (accumulate (fragments (stream_reply T 0 req))) in
  (failure (stream_reply T 0 gemini_req) = None ->
   let h' := if truthy (answer gemini_req)
             then h ++ [PartsTurn "user" full_input; PartsTurn "model" (answer gemini_req)]
             else h ++ [PartsTurn "user" full_input] in
   nochunk_with_gemini T m chunks description (start given)
   = (Returned (answer gemini_req, Some h'),
      {| history := Some h'; calls := [gemini_req]; errors := [] |}))
  /\ (failure (stream_reply T 0 deepseek_req) = None ->
      let h' := if truthy (answer deepseek_req)
                then h ++ [ContentTurn "user" full_input;
                           ContentTurn "assistant" (answer deepseek_req)]
                else h in
      nochunk_with_deepseek T m chunks description (start given)
      = (Returned (answer deepseek_req, Some h'),
         {| history := Some h'; calls := [deepseek_req]; errors := [] |})).
Proof.
  intros Hne. destruct chunks as [|chunk rest]; [congruence|].
  Local Opaque construct_prompt joined_input strip accumulate truthy.
  destruct given as [g|]; simpl default; intros h full_input gemini_req deepseek_req answer;
    subst h full_input gemini_req deepseek_req answer; (split; intros Hok).
  all: unfold nochunk_with_gemini, nochunk_with_deepseek, try_except, bind,
      default_history, history_append, history_list, call_streaming, bind, record_call,
      return_with_history, bind, get_history, start; simpl in Hok |- *;
      rewrite Hok; simpl.
  all: match goal with |- context [truthy ?a] => destruct (truthy a) end; simpl;
      rewrite <- ?app_assoc; reflexivity.
  Local Transparent construct_prompt joined_input strip accumulate truthy.
Qed.

Lemma nochunk_with_content_witness :
  nochunk_with_gemini (answering " 42 ") gemini_flash ["page one"; "page two"]
                      "the answer" (start None)
  = (Returned ("42", Some [PartsTurn "user" (joined_input ["page one"; "page two"] "the answer");
                           PartsTurn "model" "42"]),
     {| history := Some [PartsTurn "user" (joined_input ["page one"; "page two"] "the answer");
                         PartsTurn "model" "42"];
        calls := [GenerateContent "gemini-2.0-flash" (construct_prompt "the answer")
                    (Conversation
                       [PartsTurn "user" (joined_input ["page one"; "page two"] "the answer")])
                    true];
        errors := [] |}).
Proof.
  destruct (nochunk_with_content (answering " 42 ") gemini_flash ["page one"; "page two"]
              "the answer" None) as [Hgemini _]; [discriminate|].
  apply Hgemini. reflexivity.
Defined.




(** The description goes into the system prompt as it is, and every user
    turn holds the chunk (or the joined chunks) and the description as they
    are. *)
Theorem description_is_embedded (chunk description : string) (chunks : list string) :
  contains description (construct_prompt description) = true
  /\ contains chunk (chunk_input chunk description) = true
  /\ contains description (chunk_input chunk description) = true
  /\ contains description (joined_input chunks description) = true
  /\ contains (join (nl +:+ nl) chunks) (joined_input chunks description) = true.
Proof.
  unfold construct_prompt, chunk_input, joined_input.
  repeat split;
    repeat (first [ apply PyStrFacts.contains_of_prefix, PyStrFacts.prefix_of_append
                  | apply PyStrFacts.contains_of_prefix, PyStrFacts.prefix_refl
                  | apply PyStrFacts.contains_skip ]).
Qed.

(** *** What an extraction touches *)

(** The turns each dialect may append. *)
Definition gemini_turn (t : Turn) : Prop :=
exists text, t = PartsTurn "user" text \/ t = PartsTurn "model" text.

Definition deepseek_turn (t : Turn) : Prop :=
exists content, t = ContentTurn "user" content \/ t = ContentTurn "assistant" content.

Section Footprint.
Variable T : Transport.
Variable allowed : Turn -> Prop.
Variable h0 : History.

(** The history is the initial one followed by allowed turns, and at most
    [n] model calls have been made. *)
Definition footprint (n : nat) (s : Session) : Prop :=
(exists added, history s = Some (h0 ++ added) /\ Forall allowed added)
/\ List.length (calls s) <= n.

Lemma footprint_mono (n n' : nat) (s : Session) :
  n <= n' -> footprint n s -> footprint n' s.
Proof. intros Hle [Hh Hc]. split; [exact Hh | lia]. Qed.

Lemma footprint_default (n : nat) (E : Exn -> Session -> Prop) :
  triple (footprint n) default_history (fun _ => footprint n) E.
Proof.
  intros s [(added & Hh & Hall) Hc]. simpl. rewrite Hh. split; eauto.
Qed.

Lemma footprint_list (n : nat) (E : Exn -> Session -> Prop) :
  triple (footprint n) history_list (fun _ => footprint n) E.
Proof.
  intros s [(added & Hh & Hall) Hc]. unfold history_list. rewrite Hh. split; eauto.
Qed.

Lemma footprint_append (n : nat) (turn : Turn) (E : Exn -> Session -> Prop) :
  allowed turn -> triple (footprint n) (history_append turn) (fun _ => footprint n) E.
Proof.
  intros Hturn s [(added & Hh & Hall) Hc]. unfold history_append. rewrite Hh.
  split; [|exact Hc]. exists (added ++ [turn]). simpl. split.
  - by rewrite app_assoc.
  - apply Forall_app. split; [exact Hall | by constructor].
Qed.

Lemma footprint_call_streaming (n : nat) (req : Request) :
  triple (footprint n) (call_streaming T req)
         (fun _ => footprint (S n)) (fun _ => footprint (S n)).
Proof.
  intros s [Hh Hc]. unfold call_streaming, bind, record_call.
  destruct (failure _); simpl; (split; [exact Hh|]);
    simpl; rewrite length_app; simpl; lia.
Qed.

Lemma footprint_call_whole (n : nat) (req : Request) :
  triple (footprint n) (call_whole T req)
         (fun _ => footprint (S n)) (fun _ => footprint (S n)).
Proof.
  intros s [Hh Hc]. unfold call_whole, bind, record_call.
  destruct (whole_reply _ _ _); simpl; (split; [exact Hh|]);
    simpl; rewrite length_app; simpl; lia.
Qed.

Lemma footprint_return (n : nat) (text : string) (E : Exn -> Session -> Prop) :
  triple (footprint n) (return_with_history text) (fun _ => footprint n) E.
Proof. intros s Hs. exact Hs. Qed.

Lemma footprint_handler (n : nat) (msg : string) (E : Exn -> Session -> Prop) :
  triple (footprint n) (st_error msg ;;; return_with_history "")
         (fun _ => footprint n) E.
Proof. intros s Hs. exact Hs. Qed.

End Footprint.

Lemma footprint_gemini_chunks (T : Transport) (h0 : History) (m : Model)
  (system_prompt description : string) (chunks : list string) :
  forall (n : nat) (all_responses : list string) (final_result : option string),
    triple (footprint gemini_turn h0 n)
      (gemini_chunks T m system_prompt description chunks all_responses final_result)
      (fun _ => footprint gemini_turn h0 (n + List.length chunks))
      (fun _ => footprint gemini_turn h0 (n + List.length chunks)).
Proof.
  induction chunks as [|chunk rest IH]; intros n all_responses final_result; simpl.
  - apply triple_ret. intros s Hs. eapply footprint_mono; [|exact Hs]. lia.
  - eapply triple_bind.
    { apply footprint_append. eexists. left. reflexivity. }
    intros ?. eapply triple_bind; [apply footprint_list|]. intros h.
    eapply triple_bind.
    { eapply triple_exn_mono; [apply footprint_call_streaming|].
      intros ? s Hs. eapply footprint_mono; [|exact Hs]. lia. }
    intros full_response.
    eapply triple_bind with (R := fun _ => footprint gemini_turn h0 (S n)).
    + apply triple_if; [|apply triple_ret; auto].
      eapply triple_bind.
      { apply footprint_append. eexists. right. reflexivity. }
      intros ?. apply triple_ret. auto.
    + intros kept. eapply triple_weaken; [apply (IH (S n)) | auto | |];
        intros ? s Hs; (eapply footprint_mono; [|exact Hs]); simpl; lia.
Qed.

Lemma footprint_deepseek_chunks (T : Transport) (h0 : History) (m : Model)
  (system_prompt description : string) (chunks : list string) :
  forall (n : nat) (all_responses : list string),
    triple (footprint deepseek_turn h0 n)
      (deepseek_chunks T m system_prompt description chunks all_responses)
      (fun _ => footprint deepseek_turn h0 (n + List.length chunks))
      (fun _ => footprint deepseek_turn h0 (n + List.length chunks)).
Proof.
  induction chunks as [|chunk rest IH]; intros n all_responses; simpl.
  - apply triple_ret. intros s Hs. eapply footprint_mono; [|exact Hs]. lia.
  - eapply triple_bind; [apply footprint_list|]. intros h.
    eapply triple_bind.
    { eapply triple_exn_mono; [apply footprint_call_streaming|].
      intros ? s Hs. eapply footprint_mono; [|exact Hs]. lia. }
    intros full_response.
    eapply triple_bind with (R := fun _ => footprint deepseek_turn h0 (S n)).
    + apply triple_if; [|apply triple_ret; auto].
      eapply triple_bind.
      { apply footprint_append. eexists. left. reflexivity. }
      intros ?. eapply triple_bind.
      { apply footprint_append. eexists. right. reflexivity. }
      intros ?. apply triple_ret. auto.
    + intros kept. eapply triple_weaken; [apply (IH (S n)) | auto | |];
        intros ? s Hs; (eapply footprint_mono; [|exact Hs]); simpl; lia.
Qed.

Lemma footprint_start (allowed : Turn -> Prop) (h : History) :
  footprint allowed h 0 (start (Some h)).
Proof.
  split; [|simpl; lia]. exists []. split; [by rewrite app_nil_r | constructor].
Qed.

Lemma footprint_chunk_with_gemini (T : Transport) (h0 : History) (m : Model)
  (chunks : list string) (description : string) :
  triple (footprint gemini_turn h0 0) (chunk_with_gemini T m chunks description)
         (fun _ => footprint gemini_turn h0 (List.length chunks))
         (fun _ => footprint gemini_turn h0 (List.length chunks)).
Proof.
  unfold chunk_with_gemini.
  eapply triple_bind; [apply footprint_default|]. intros ?.
  eapply triple_try with (E1 := fun _ => footprint gemini_turn h0 (List.length chunks));
    [|intros e; apply footprint_handler].
  eapply triple_bind; [apply (footprint_gemini_chunks T h0 m _ _ chunks 0)|].
  intros [text|]; [apply footprint_return | apply triple_raise; auto].
Qed.

Lemma footprint_chunk_with_deepseek (T : Transport) (h0 : History) (m : Model)
  (chunks : list string) (description : string) :
  triple (footprint deepseek_turn h0 0) (chunk_with_deepseek T m chunks description)
         (fun _ => footprint deepseek_turn h0 (List.length chunks))
         (fun _ => footprint deepseek_turn h0 (List.length chunks)).
Proof.
  unfold chunk_with_deepseek.
  eapply triple_try with (E1 := fun _ => footprint deepseek_turn h0 (List.length chunks));
    [|intros e; apply footprint_handler].
  eapply triple_bind.
  { apply footprint_default. }
  intros ?.
  eapply triple_bind; [apply (footprint_deepseek_chunks T h0 m _ _ chunks 0)|].
  intros kept. apply footprint_return.
Qed.

Lemma footprint_nochunk_with_gemini (T : Transport) (h0 : History) (m : Model)
  (chunks : list string) (description : string) :
  triple (footprint gemini_turn h0 0) (nochunk_with_gemini T m chunks description)
         (fun _ => footprint gemini_turn h0 1) (fun _ => footprint gemini_turn h0 1).
Proof.
  unfold nochunk_with_gemini.
  eapply triple_bind.
  { apply footprint_default. }
  intros ?. destruct chunks as [|chunk rest].
  - eapply triple_bind; [apply footprint_call_whole|]. intros text.
    apply footprint_return.
  - eapply triple_try with (E1 := fun _ => footprint gemini_turn h0 1);
      [|intros e; apply footprint_handler].
    eapply triple_bind.
    { apply footprint_append. eexists. left. reflexivity. }
    intros ?. eapply triple_bind.
    { apply footprint_list. }
    intros h. eapply triple_bind; [apply footprint_call_streaming|].
    intros full_response.
    eapply triple_bind with (R := fun _ => footprint gemini_turn h0 1).
    + apply triple_if; [|apply triple_ret; auto].
      apply footprint_append. eexists. right. reflexivity.
    + intros ?. apply footprint_return.
Qed.

Lemma footprint_nochunk_with_deepseek (T : Transport) (h0 : History) (m : Model)
  (chunks : list string) (description : string) :
  triple (footprint deepseek_turn h0 0) (nochunk_with_deepseek T m chunks description)
         (fun _ => footprint deepseek_turn h0 1) (fun _ => footprint deepseek_turn h0 1).
Proof.
  unfold nochunk_with_deepseek.
  eapply triple_try with (E1 := fun _ => footprint deepseek_turn h0 1);
    [|intros e; apply footprint_handler].
  eapply triple_bind.
  { apply footprint_default. }
  intros ?. destruct chunks as [|chunk rest].
  - eapply triple_bind; [apply footprint_call_whole|]. intros text.
    apply footprint_return.
  - eapply triple_bind.
    { apply footprint_list. }
    intros h. eapply triple_bind; [apply footprint_call_streaming|].
    intros full_response.
    eapply triple_bind with (R := fun _ => footprint deepseek_turn h0 1).
    + apply triple_if; [|apply triple_ret; auto].
      eapply triple_bind.
      { apply footprint_append. eexists. left. reflexivity. }
      intros ?. apply footprint_append. eexists. right. reflexivity.
    + intros ?. apply footprint_return.
Qed.

Lemma footprint_of_triple {A} (allowed : Turn -> Prop) (given : option History)
  (n : nat) (f : M A) :
  triple (footprint allowed (default [] given) 0) f
         (fun _ => footprint allowed (default [] given) n)
         (fun _ => footprint allowed (default [] given) n) ->
  f (start given) = f (start (Some (default [] given))) ->
  footprint allowed (default [] given) n (snd (f (start given))).
Proof.
  intros Hf Heq. rewrite Heq.
  specialize (Hf (start (Some (default [] given))) (footprint_start allowed _)).
  destruct (f (start (Some (default [] given)))) as [[a|e] s]; exact Hf.
Qed.

(** Whatever the model does, an extraction leaves the turns it was given in
    place and appends only turns of its own dialect: user and model turns
    in the Gemini encoding, user and assistant turns in the DeepSeek
    encoding.  The system prompt is never stored. *)
Theorem extraction_appends_own_turns (T : Transport) (m : Model)
  (chunks : list string) (description : string) (given : option History) :
  let appended (ok : Turn -> Prop) (s : Session) :=
    exists added, history s = Some (default [] given ++ added) /\ Forall ok added in
  appended gemini_turn (snd (chunk_with_gemini T m chunks description (start given)))
  /\ appended deepseek_turn (snd (chunk_with_deepseek T m chunks description (start given)))
  /\ appended gemini_turn (snd (nochunk_with_gemini T m chunks description (start given)))
  /\ appended deepseek_turn
       (snd (nochunk_with_deepseek T m chunks description (start given))).
Proof.
  intros appended. repeat split.
  - apply (footprint_of_triple gemini_turn given (List.length chunks));
      [apply footprint_chunk_with_gemini | destruct given; reflexivity].
  - apply (footprint_of_triple deepseek_turn given (List.length chunks));
      [apply footprint_chunk_with_deepseek | destruct given; reflexivity].
  - apply (footprint_of_triple gemini_turn given 1);
      [apply footprint_nochunk_with_gemini | destruct given; reflexivity].
  - apply (footprint_of_triple deepseek_turn given 1);
      [apply footprint_nochunk_with_deepseek | destruct given; reflexivity].
Qed.

(** Whatever the model does, chunked extraction calls it at most once per
    chunk and extraction without chunking at most once. *)
Theorem extraction_call_budget (T : Transport) (m : Model)
  (chunks : list string) (description : string) (given : option History) :
  List.length (calls (snd (chunk_with_gemini T m chunks description (start given))))
    <= List.length chunks
  /\ List.length (calls (snd (chunk_with_deepseek T m chunks description (start given))))
    <= List.length chunks
  /\ List.length (calls (snd (nochunk_with_gemini T m chunks description (start given))))
    <= 1
  /\ List.length (calls (snd (nochunk_with_deepseek T m chunks description (start given))))
    <= 1.
Proof.
  repeat split.
  - apply (footprint_of_triple gemini_turn given (List.length chunks));
      [apply footprint_chunk_with_gemini | destruct given; reflexivity].
  - apply (footprint_of_triple deepseek_turn given (List.length chunks));
      [apply footprint_chunk_with_deepseek | destruct given; reflexivity].
  - apply (footprint_of_triple gemini_turn given 1);
      [apply footprint_nochunk_with_gemini | destruct given; reflexivity].
  - apply (footprint_of_triple deepseek_turn given 1);
      [apply footprint_nochunk_with_deepseek | destruct given; reflexivity].
Qed.

(** *** The history returned is the session's *)

Lemma returns_own_history (text : string) (P : Session -> Prop)
  (E : Exn -> Session -> Prop) :
  triple P (return_with_history text) (fun pair s => snd pair = history s) E.
Proof. intros s _. reflexivity. Qed.

Lemma anything {A} (m : M A) : triple (fun _ => True) m (fun _ _ => True) (fun _ _ => True).
Proof. intros s _. destruct (m s) as [[a|e] s1]; exact I. Qed.

Lemma returns_own_history_handler (msg : string) (P : Session -> Prop)
  (E : Exn -> Session -> Prop) :
  triple P (st_error msg ;;; return_with_history "")
         (fun pair s => snd pair = history s) E.
Proof. intros s _. reflexivity. Qed.

Lemma returns_own_history_nochunk_gemini (T : Transport) (m : Model)
  (chunks : list string) (description : string) :
  triple (fun _ => True) (nochunk_with_gemini T m chunks description)
         (fun pair s => snd pair = history s) (fun _ _ => True).
Proof.
  unfold nochunk_with_gemini.
  eapply triple_bind; [apply anything|]. intros ?. destruct chunks as [|chunk rest].
  - eapply triple_bind; [apply anything|]. intros text. apply returns_own_history.
  - eapply triple_try with (E1 := fun _ _ => True);
      [|intros e; apply returns_own_history_handler].
    eapply triple_bind; [apply anything|]. intros ?.
    eapply triple_bind; [apply anything|]. intros h.
    eapply triple_bind; [apply anything|]. intros full_response.
    eapply triple_bind; [apply anything|]. intros ?.
    apply returns_own_history.
Qed.

Lemma returns_own_history_nochunk_deepseek (T : Transport) (m : Model)
  (chunks : list string) (description : string) :
  triple (fun _ => True) (nochunk_with_deepseek T m chunks description)
         (fun pair s => snd pair = history s) (fun _ _ => True).
Proof.
  unfold nochunk_with_deepseek.
  eapply triple_try with (E1 := fun _ _ => True);
    [|intros e; apply returns_own_history_handler].
  eapply triple_bind; [apply anything|]. intros ?. destruct chunks as [|chunk rest].
  - eapply triple_bind; [apply anything|]. intros text. apply returns_own_history.
  - eapply triple_bind; [apply anything|]. intros h.
    eapply triple_bind; [apply anything|]. intros full_response.
    eapply triple_bind; [apply anything|]. intros ?.
    apply returns_own_history.
Qed.

Lemma process_with_nochunking_own_history (T : Transport) (m : Model)
  (chunks : list string) (description : string) (s0 s : Session)
  (text : string) (h : option History) :
  process_with_nochunking T m chunks description s0 = (Returned (Some (text, h)), s) ->
  h = history s.
Proof.
  unfold process_with_nochunking. intros Hcall.
  assert (Hown : forall f : M (string * option History),
            triple (fun _ => True) f (fun pair s => snd pair = history s) (fun _ _ => True) ->
            (r <- f ;; ret (Some r)) s0 = (Returned (Some (text, h)), s) ->
            h = history s).
  { intros f Hf. unfold bind, ret. specialize (Hf s0 I).
    destruct (f s0) as [[pair|e] s1]; intros H; inversion H; subst. exact Hf. }
  destruct (contains "gemini" (model m)).
  - simpl in Hcall. revert Hcall. apply Hown, returns_own_history_nochunk_gemini.
  - destruct (contains "deepseek" (model m)); [|discriminate].
    simpl in Hcall. revert Hcall. apply Hown, returns_own_history_nochunk_deepseek.
Qed.




End EngineFacts.

(** ** Page extraction and crawler *)

Module ScraperFacts.
Import PyStr Scraper.

(** *** The queue *)

(** New URLs go to the tail, and only those that are neither visited nor
    queued. *)
Lemma enqueue_appends (visited : gset string) (new_urls : list string) :
  forall frontier : list string,
    exists added, enqueue visited frontier new_urls = frontier ++ added
      /\ forall u, u ∈ added -> (u ∈ new_urls) /\ (u ∉ visited) /\ (u ∉ frontier).
Proof.
  induction new_urls as [|url rest IH]; intros frontier; simpl.
  - exists []. split; [by rewrite app_nil_r|]. intros u Hu. inversion Hu.
  - destruct (bool_decide (url ∉ visited)) eqn:Hv;
      [destruct (bool_decide (url ∉ frontier)) eqn:Hf|]; simpl.
    + apply bool_decide_eq_true in Hv, Hf.
      destruct (IH (frontier ++ [url])) as (added & Heq & Hadded).
      exists (url :: added). split; [by rewrite Heq, <- app_assoc|].
      intros u Hu. apply elem_of_cons in Hu as [->|Hu].
      * repeat split; auto. left.
      * destruct (Hadded u Hu) as (H1 & H2 & H3). repeat split; auto.
        -- by right.
        -- intros Hin. apply H3. apply elem_of_app. by left.
    + destruct (IH frontier) as (added & Heq & Hadded).
      exists added. split; [exact Heq|].
      intros u Hu. destruct (Hadded u Hu) as (H1 & H2 & H3). repeat split; auto. by right.
    + destruct (IH frontier) as (added & Heq & Hadded).
      exists added. split; [exact Heq|].
      intros u Hu. destruct (Hadded u Hu) as (H1 & H2 & H3). repeat split; auto. by right.
Qed.

Lemma enqueue_sound (visited : gset string) (new_urls : list string) :
  forall frontier : list string,
    NoDup frontier -> (forall u, u ∈ frontier -> u ∉ visited) ->
    NoDup (enqueue visited frontier new_urls)
    /\ (forall u, u ∈ enqueue visited frontier new_urls -> u ∉ visited).
Proof.
  induction new_urls as [|url rest IH]; intros frontier Hnd Hfresh; simpl.
  - split; auto.
  - destruct (bool_decide (url ∉ visited)) eqn:Hv;
      [destruct (bool_decide (url ∉ frontier)) eqn:Hf|]; simpl; auto.
    apply bool_decide_eq_true in Hv, Hf. apply IH.
    + apply NoDup_app. repeat split; auto.
      * intros u Hu Hu'. apply list_elem_of_singleton in Hu'. subst. auto.
      * apply NoDup_singleton.
    + intros u Hu. apply elem_of_app in Hu as [Hu|Hu]; auto.
      apply list_elem_of_singleton in Hu. subst. auto.
Qed.

Section Crawling.
Variable World : Type.
Variable driver_get : World -> string -> World * Outcome string.
Variable body_text : string -> option string.
Variable img_sources : string -> list (option string).
Variable iteration_order : gset string -> list string.
Variable opts : AdvOptions.

Local Abbreviation scrape := (scrape World driver_get body_text).
Local Abbreviation visit := (visit World driver_get body_text img_sources iteration_order opts).
Local Abbreviation loop_body :=
  (loop_body World driver_get body_text img_sources iteration_order opts).
Local Abbreviation while_loop fuel :=
  (while_loop World driver_get body_text img_sources iteration_order fuel opts).
Local Abbreviation Multi_scrape fuel self st start_url :=
  (Multi_scrape World driver_get body_text img_sources iteration_order
                fuel self st start_url opts).

(** One pass through the loop body that goes back to the loop head. *)
Definition crawl_step (c c' : Crawl World) : Prop :=
exists current_url rest,
  urls_to_scrape c = current_url :: rest
  /\ scraped_count c < max_urls opts
  /\ loop_body c current_url rest = Continue c'.

(** What holds at every loop head of a crawl started at [start_url]. *)
Record crawl_inv (start_url : string) (c : Crawl World) : Prop := {
  inv_fetched_once : NoDup (fetched c);
  inv_visited : visited_urls c = list_to_set (fetched c);
  inv_queue_once : NoDup (urls_to_scrape c);
  inv_queue_fresh : forall u, u ∈ urls_to_scrape c -> u ∉ visited_urls c;
  inv_budget : scraped_count c <= max_urls opts;
  inv_count : scraped_count c <= List.length (fetched c);
  inv_single : max_urls opts = 1 ->
               (forall u, u ∈ urls_to_scrape c -> u = start_url)
               /\ (forall u, u ∈ fetched c -> u = start_url)
}.

Lemma crawl_inv_initial (self : WebScraper World) (st : SessionState) (start_url : string) :
  crawl_inv start_url (initial World self st start_url).
Proof.
  split; simpl.
  - constructor.
  - reflexivity.
  - apply NoDup_singleton.
  - intros u _. apply not_elem_of_empty.
  - lia.
  - lia.
  - intros _. split; intros u Hu.
    + by apply list_elem_of_singleton in Hu.
    + inversion Hu.
Qed.

Lemma crawl_inv_pop (start_url : string) (c : Crawl World) (u : string) (rest : list string) :
  crawl_inv start_url c -> urls_to_scrape c = u :: rest ->
  crawl_inv start_url (pop World c rest) /\ (u ∉ rest) /\ (u ∉ visited_urls c).
Proof.
  intros [H1 H2 H3 H4 H5 H6 H7] Hq. rewrite Hq in H3, H4, H7.
  apply NoDup_cons in H3 as [Hu Hrest].
  split; [|split; [exact Hu | apply H4; left]].
  split; simpl; auto.
  - intros v Hv. apply H4. by right.
  - intros Hone. destruct (H7 Hone) as [Ha Hb]. split; auto.
    intros v Hv. apply Ha. by right.
Qed.

Lemma crawl_inv_visit (start_url : string) (c : Crawl World) (u : string) :
  crawl_inv start_url c -> u ∉ urls_to_scrape c -> u ∉ visited_urls c ->
  scraped_count c < max_urls opts ->
  (max_urls opts = 1 -> u = start_url) ->
  crawl_inv start_url (visit c u).
Proof.
  intros [H1 H2 H3 H4 H5 H6 H7] Hq Hv Hlt Hstart.
  assert (Hfetched : NoDup (fetched c ++ [u])).
  { apply NoDup_app. repeat split; auto.
    - intros v Hv1 Hv2. apply list_elem_of_singleton in Hv2. subst v.
      apply Hv. rewrite H2. by apply elem_of_list_to_set.
    - apply NoDup_singleton. }
  assert (Hset : visited_urls c ∪ {[u]} = list_to_set (fetched c ++ [u])).
  { rewrite list_to_set_app_L, H2. simpl. by rewrite (right_id_L ∅ (∪)). }
  assert (Hfresh : forall v, v ∈ urls_to_scrape c -> v ∉ visited_urls c ∪ {[u]}).
  { intros v Hin Hv'. apply elem_of_union in Hv' as [Hv'|Hv'].
    - by apply (H4 v Hin).
    - apply elem_of_singleton in Hv'. subst v. by apply Hq. }
  assert (Hlog : forall v, max_urls opts = 1 -> v ∈ fetched c ++ [u] -> v = start_url).
  { intros v Hone Hin. apply elem_of_app in Hin as [Hin|Hin].
    - by apply (H7 Hone).
    - apply list_elem_of_singleton in Hin. subst v. auto. }
  unfold Scraper.visit.
  destruct (scrape (scraper c) u) as [self [e|cleaned links]]; split; simpl; auto.
  - rewrite length_app. simpl. lia.
  - intros Hone. split; [by apply H7 | intros v; by apply Hlog].
  - destruct (urls_scrape opts && (scraped_count c + 1 <? max_urls opts)%nat); auto.
    by apply enqueue_sound.
  - destruct (urls_scrape opts && (scraped_count c + 1 <? max_urls opts)%nat); auto.
    by apply enqueue_sound.
  - lia.
  - rewrite length_app. simpl. lia.
  - intros Hone. split; [|intros v; by apply Hlog].
    destruct (Nat.ltb_spec (scraped_count c + 1) (max_urls opts)) as [Hlt2|Hge]; [lia|].
    rewrite andb_false_r. by apply H7.
Qed.

Lemma crawl_inv_step (start_url : string) (c c' : Crawl World) :
  crawl_inv start_url c -> crawl_step c c' -> crawl_inv start_url c'.
Proof.
  intros Hinv (u & rest & Hq & Hlt & Hbody).
  destruct (crawl_inv_pop start_url c u rest Hinv Hq) as (Hpop & Hu1 & Hu2).
  unfold Scraper.loop_body in Hbody.
  destruct (contains "cloudflare" u); [discriminate|].
  destruct (_ || _); inversion Hbody; subst c'; [exact Hpop|].
  apply crawl_inv_visit; auto.
  intros Hone. destruct (inv_single _ _ Hinv Hone) as [Hhead _].
  apply Hhead. rewrite Hq. left.
Qed.

Lemma crawl_inv_reachable (self : WebScraper World) (st : SessionState)
  (start_url : string) (c : Crawl World) :
  rtc crawl_step (initial World self st start_url) c -> crawl_inv start_url c.
Proof.
  revert c. apply rtc_ind_r.
  - apply crawl_inv_initial.
  - intros c1 c2 _ Hstep Hinv. eapply crawl_inv_step; eauto.
Qed.

(** *** Running the loop *)

Lemma while_loop_steps (k : nat) (c0 c : Crawl World) :
  nsteps crawl_step k c0 c ->
  forall fuel, while_loop (k + fuel) c0 = while_loop fuel c.
Proof.
  induction 1 as [c|k c0 c1 c (u & rest & Hq & Hlt & Hbody) _ IH]; intros fuel.
  - reflexivity.
  - simpl. rewrite Hq.
    destruct (Nat.ltb_spec (scraped_count c0) (max_urls opts)) as [_|Hge]; [|lia].
    rewrite Hbody. apply IH.
Qed.

(** The loop ends: every pass either shortens the queue or uses up one
    page of the budget. *)
Lemma while_loop_terminates (budget : nat) :
  forall c : Crawl World,
    max_urls opts - scraped_count c <= budget ->
    exists fuel result, while_loop fuel c = Some result.
Proof.
  induction budget as [|budget IHb]; intros c Hb.
  - exists 0. destruct c as [? ? ? ? queue count ? ?]; simpl in *.
    destruct queue as [|u rest]; [eauto|].
    destruct (Nat.ltb_spec count (max_urls opts)); [lia | eauto].
  - remember (List.length (urls_to_scrape c)) as len eqn:Hlen.
    revert c Hb Hlen. induction len as [|len IHl]; intros c Hb Hlen.
    + exists 0. simpl. destruct (urls_to_scrape c); [eauto | discriminate].
    + destruct (urls_to_scrape c) as [|u rest] eqn:Hq; [discriminate|].
      destruct (Nat.ltb_spec (scraped_count c) (max_urls opts)) as [Hlt|Hge].
      2:{ exists 0. simpl. rewrite Hq.
          destruct (Nat.ltb_spec (scraped_count c) (max_urls opts)); [lia | eauto]. }
      assert (Hgo : forall c', loop_body c u rest = Continue c' ->
                (exists fuel result, while_loop fuel c' = Some result) ->
                exists fuel result, while_loop fuel c = Some result).
      { intros c' Hbody (fuel & result & Hrun). exists (S fuel), result.
        simpl. rewrite Hq.
        destruct (Nat.ltb_spec (scraped_count c) (max_urls opts)); [|lia].
        rewrite Hbody. exact Hrun. }
      destruct (loop_body c u rest) as [c'|text c'] eqn:Hbody.
      2:{ exists 1. simpl. rewrite Hq.
          destruct (Nat.ltb_spec (scraped_count c) (max_urls opts)); [|lia].
          rewrite Hbody. eauto. }
      apply (Hgo c' eq_refl).
      unfold Scraper.loop_body in Hbody.
      destruct (contains "cloudflare" u); [discriminate|].
      destruct (_ || _); inversion Hbody; subst c'.
      * apply IHl; simpl; [exact Hb | simpl in Hlen; lia].
      * unfold Scraper.visit. simpl.
        destruct (scrape (scraper c) u) as [self [e|cleaned links]].
        -- apply IHl; simpl; [exact Hb | simpl in Hlen; lia].
        -- apply IHb. simpl. lia.
Qed.

Lemma Multi_scrape_terminates (self : WebScraper World) (st : SessionState)
  (start_url : string) :
  exists fuel result, Multi_scrape fuel self st start_url = Some result.
Proof.
  destruct (while_loop_terminates (max_urls opts) (initial World self st start_url))
    as (fuel & [out c] & Hrun); [simpl; lia|].
  exists fuel. unfold Scraper.Multi_scrape. rewrite Hrun.
  destruct out; eauto.
Qed.

(** *** The claims about the crawl *)

(** C5: when the URL at the head of the queue is popped and contains
    "cloudflare", [Multi_scrape] returns at once, and what it returns is the
    text gathered up to that loop head; the rest of the queue is left
    unprocessed, nothing more is fetched or counted and the warning is shown. *)
Theorem cloudflare_stops_crawl (self : WebScraper World) (st : SessionState)
  (start_url : string) (k : nat) (c : Crawl World)
  (current_url : string) (rest : list string) (fuel : nat) :
  nsteps crawl_step k (initial World self st start_url) c ->
  urls_to_scrape c = current_url :: rest ->
  scraped_count c < max_urls opts ->
  contains "cloudflare" current_url = true ->
  Multi_scrape (k + S fuel) self st start_url
  = Some (Returned (Some (all_cleaned_text c)), warn_cloudflare World (pop World c rest)).
Proof.
  intros Hreach Hq Hlt Hmark. unfold Scraper.Multi_scrape.
  rewrite (while_loop_steps k _ c Hreach). simpl. rewrite Hq.
  destruct (Nat.ltb_spec (scraped_count c) (max_urls opts)); [|lia].
  unfold Scraper.loop_body. rewrite Hmark. reflexivity.
Qed.

(** C6: at every loop head of a crawl, no URL has been handed to [scrape]
    twice and the visited set holds exactly the URLs handed to it; the queue
    holds no URL twice and none that is visited, and what [enqueue] adds
    goes to the tail and was neither visited nor queued; the page count
    does not exceed [max_urls]; and with [max_urls = 1] no URL other than
    the start URL is ever handed to [scrape], whether links are followed
    or not. *)
Theorem crawl_invariants (self : WebScraper World) (st : SessionState)
  (start_url : string) (c : Crawl World) :
  rtc crawl_step (initial World self st start_url) c ->
  (NoDup (fetched c) /\ visited_urls c = list_to_set (fetched c))
  /\ (NoDup (urls_to_scrape c)
      /\ (forall u, u ∈ urls_to_scrape c -> u ∉ visited_urls c)
      /\ (forall visited frontier new_urls,
            exists added, enqueue visited frontier new_urls = frontier ++ added
              /\ forall u, u ∈ added -> (u ∉ visited) /\ (u ∉ frontier)))
  /\ scraped_count c <= max_urls opts
  /\ (max_urls opts = 1 -> forall u, u ∈ fetched c -> u = start_url).
Proof.
  intros Hreach. destruct (crawl_inv_reachable self st start_url c Hreach)
    as [H1 H2 H3 H4 H5 H6 H7].
  split; [split; assumption|].
  split; [split; [assumption|split; [assumption|]]|].
  - intros visited frontier new_urls.
    destruct (enqueue_appends visited new_urls frontier) as (added & Heq & Hadded).
    exists added. split; [exact Heq|]. intros u Hu.
    destruct (Hadded u Hu) as (_ & Hv & Hf). split; assumption.
  - split; [assumption|]. intros Hone. apply (H7 Hone).
Qed.

(** C7, on the code: when the browser fails, [scrape] hands back the
    exception object and no pair; on a page without a body element the
    second component of the pair is the empty string and no set.  Only a
    page with a body gives the cleaned text and a set of URLs. *)
Theorem scrape_result_shapes (self : WebScraper World) (url : string) :
  (forall w e, driver_get (world self) url = (w, Raised e) ->
     snd (scrape self url) = GotException e)
  /\ (forall w source, driver_get (world self) url = (w, Returned source) ->
        body_text source = None ->
        snd (scrape self url) = GotPair "" (UrlText ""))
  /\ (forall w source raw, driver_get (world self) url = (w, Returned source) ->
        body_text source = Some raw ->
        snd (scrape self url)
        = GotPair (clean_lines raw) (UrlSet (link_urls (clean_lines raw)))).
Proof.
  unfold Scraper.scrape. repeat split.
  - intros w e ->. reflexivity.
  - intros w source -> ->. reflexivity.
  - intros w source raw -> ->. reflexivity.
Qed.

(** *** Further properties of the crawl *)

Lemma while_loop_more_fuel (fuel : nat) :
  forall (c : Crawl World) result,
    while_loop fuel c = Some result ->
    forall extra, while_loop (fuel + extra) c = Some result.
Proof.
  induction fuel as [|fuel IH]; intros c result Hrun extra.
  - simpl in Hrun. destruct (urls_to_scrape c) as [|u rest] eqn:Hq.
    + destruct extra; simpl; rewrite Hq; exact Hrun.
    + destruct (scraped_count c <? max_urls opts)%nat eqn:Hlt; [discriminate|].
      destruct extra; simpl; rewrite Hq, Hlt; exact Hrun.
  - simpl in *. destruct (urls_to_scrape c) as [|u rest]; [exact Hrun|].
    destruct (scraped_count c <? max_urls opts)%nat; [|exact Hrun].
    destruct (loop_body c u rest) as [c'|text c']; [|exact Hrun].
    apply IH. exact Hrun.
Qed.

(** The crawl always comes to an end: some number of passes suffices, and
    allowing more passes gives the same outcome. *)
Theorem Multi_scrape_total (self : WebScraper World) (st : SessionState)
  (start_url : string) :
  exists fuel result,
    forall extra, Multi_scrape (fuel + extra) self st start_url = Some result.
Proof.
  destruct (while_loop_terminates (max_urls opts) (initial World self st start_url))
    as (fuel & [out c] & Hrun); [simpl; lia|].
  exists fuel.
  exists (match out with
          | Returned_text text => (Returned (Some text), c)
          | Fell_through => finish World c
          end).
  intros extra. unfold Scraper.Multi_scrape.
  rewrite (while_loop_more_fuel fuel _ _ Hrun extra). destruct out; reflexivity.
Qed.


(** Only URLs that start with http:// or https:// and do not contain
    "cloudflare" are ever handed to [scrape]. *)
Theorem fetched_urls_wellformed (self : WebScraper World) (st : SessionState)
  (start_url : string) (c : Crawl World) (u : string) :
  rtc crawl_step (initial World self st start_url) c ->
  u ∈ fetched c ->
  (startswith "http://" u || startswith "https://" u) = true
  /\ contains "cloudflare" u = false.
Proof.
  intros Hreach. revert u. revert c Hreach.
  apply (rtc_ind_r (fun c => forall u, u ∈ fetched c ->
           (startswith "http://" u || startswith "https://" u) = true
           /\ contains "cloudflare" u = false)).
  - intros u Hu. inversion Hu.
  - intros c1 c2 _ (v & rest & Hq & Hlt & Hbody) IH u Hu.
    unfold Scraper.loop_body in Hbody.
    destruct (contains "cloudflare" v) eqn:Hmark; [discriminate|].
    destruct (bool_decide (v ∈ visited_urls (pop World c1 rest))); simpl in Hbody.
    { inversion Hbody; subst. apply IH. exact Hu. }
    destruct (startswith "http://" v || startswith "https://" v) eqn:Hscheme;
      simpl in Hbody; inversion Hbody; subst; [|apply IH; exact Hu].
    assert (Hlog : fetched (visit (pop World c1 rest) v) = fetched c1 ++ [v]).
    { unfold Scraper.visit.
      destruct (scrape (scraper (pop World c1 rest)) v) as [? [?|? ?]]; reflexivity. }
    rewrite Hlog in Hu. apply elem_of_app in Hu as [Hu|Hu]; [apply IH; exact Hu|].
    apply list_elem_of_singleton in Hu. subst u. auto.
Qed.

(** What a pass keeps: the text, the visited set, the page count and the
    log of fetched URLs only grow. *)
Lemma crawl_step_grows (c c' : Crawl World) :
  crawl_step c c' ->
  (exists more, all_cleaned_text c' = all_cleaned_text c +:+ more)
  /\ visited_urls c ⊆ visited_urls c'
  /\ scraped_count c <= scraped_count c'
  /\ fetched c `prefix_of` fetched c'.
Proof.
  intros (u & rest & Hq & Hlt & Hbody). unfold Scraper.loop_body in Hbody.
  destruct (contains "cloudflare" u); [discriminate|].
  destruct (_ || _); inversion Hbody; subst c'.
  - simpl. repeat split; auto.
    exists "". symmetry. apply PyStrFacts.append_nil_r.
  - unfold Scraper.visit.
    destruct (scrape (scraper (pop World c rest)) u) as [self [e|cleaned links]]; simpl.
    + repeat split; [|apply union_subseteq_l | lia | by apply prefix_app_r].
      exists "". symmetry. apply PyStrFacts.append_nil_r.
    + repeat split; [eauto | apply union_subseteq_l | lia | by apply prefix_app_r].
Qed.

(** Along a crawl nothing is lost: the text gathered at a later loop head
    starts with the text gathered before, the visited set and the page count
    do not shrink, and the log of fetched URLs is only extended. *)
Theorem crawl_only_grows (c c' : Crawl World) :
  rtc crawl_step c c' ->
  (exists more, all_cleaned_text c' = all_cleaned_text c +:+ more)
  /\ visited_urls c ⊆ visited_urls c'
  /\ scraped_count c <= scraped_count c'
  /\ fetched c `prefix_of` fetched c'.
Proof.
  induction 1 as [c|c c1 c' Hstep _ IH].
  - repeat split; auto. exists "". symmetry. apply PyStrFacts.append_nil_r.
  - destruct (crawl_step_grows c c1 Hstep) as ((m1 & H1) & H2 & H3 & H4).
    destruct IH as ((m2 & I1) & I2 & I3 & I4).
    repeat split.
    + exists (m1 +:+ m2). rewrite I1, H1. apply PyStrFacts.append_assoc.
    + by transitivity (visited_urls c1).
    + lia.
    + by transitivity (fetched c1).
Qed.



End Crawling.

(** *** A sample web *)

(** The browser's state counts the pages it was asked for; a URL that
    contains "down" cannot be loaded, the source of any other page is its
    URL. *)
Definition sample_get (w : nat) (url : string) : nat * Outcome string :=
(S w, if contains "down" url
      then Raised (ExternalError "net::ERR_CONNECTION_REFUSED")
      else Returned url).

(** A page whose source contains "blank" has no body; any other page shows
    a greeting and one link. *)
Definition sample_body (source : string) : option string :=
if contains "blank" source then None
else Some ("Welcome" +:+ nl +:+ "  next  " +:+ nl
           +:+ "[https://cloudflare.example/challenge]").

Definition sample_images (source : string) : list (option string) := [].

Definition sample_scraper : WebScraper nat :=
{| world := 0; html := ""; urls := UrlText ""; cleaned_result := None |}.

Definition fresh_session : SessionState :=
{| session_urls := None; dom_content := None; image_urls := None |}.

Definition two_pages : AdvOptions :=
{| max_urls := 2; img := false; max_images := None; urls_scrape := true |}.

(** The loop head after the first page of the sample crawl. *)
Definition after_first_page : Crawl nat :=
visit nat sample_get sample_body sample_images elements two_pages
      (pop nat (initial nat sample_scraper fresh_session "https://a.example") [])
      "https://a.example".

Lemma sample_first_step :
  crawl_step nat sample_get sample_body sample_images elements two_pages
             (initial nat sample_scraper fresh_session "https://a.example")
             after_first_page.
Proof.
  exists "https://a.example", []. split; [reflexivity|].
  split; [simpl; lia | vm_compute; reflexivity].
Defined.

Example sample_first_page_queue :
  urls_to_scrape after_first_page = ["https://cloudflare.example/challenge"]
  /\ all_cleaned_text after_first_page
     = "Welcome" +:+ nl +:+ "next" +:+ nl +:+ "[https://cloudflare.example/challenge]".
Proof. split; vm_compute; reflexivity. Qed.

Lemma cloudflare_stops_crawl_witness :
  Multi_scrape nat sample_get sample_body sample_images elements (1 + 1)
               sample_scraper fresh_session "https://a.example" two_pages
  = Some (Returned (Some (all_cleaned_text after_first_page)),
          warn_cloudflare nat (pop nat after_first_page [])).
Proof.
  apply (cloudflare_stops_crawl nat sample_get sample_body sample_images elements
           two_pages sample_scraper fresh_session "https://a.example" 1 after_first_page
           "https://cloudflare.example/challenge" [] 0).
  - apply nsteps_once. exact sample_first_step.
  - vm_compute; reflexivity.
  - vm_compute; lia.
  - vm_compute; reflexivity.
Defined.

Definition one_page : AdvOptions :=
{| max_urls := 1; img := false; max_images := None; urls_scrape := true |}.

(** The state after the only page of a crawl with a budget of one. *)
Definition after_only_page : Crawl nat :=
visit nat sample_get sample_body sample_images elements one_page
      (pop nat (initial nat sample_scraper fresh_session "https://a.example") [])
      "https://a.example".

Lemma sample_only_step :
  crawl_step nat sample_get sample_body sample_images elements one_page
             (initial nat sample_scraper fresh_session "https://a.example")
             after_only_page.
Proof.
  exists "https://a.example", []. split; [reflexivity|].
  split; [simpl; lia | vm_compute; reflexivity].
Defined.

Lemma crawl_invariants_witness :
  (NoDup (fetched after_only_page)
   /\ visited_urls after_only_page = list_to_set (fetched after_only_page))
  /\ (NoDup (urls_to_scrape after_only_page)
      /\ (forall u, u ∈ urls_to_scrape after_only_page -> u ∉ visited_urls after_only_page)
      /\ (forall visited frontier new_urls,
            exists added, enqueue visited frontier new_urls = frontier ++ added
              /\ forall u, u ∈ added -> (u ∉ visited) /\ (u ∉ frontier)))
  /\ scraped_count after_only_page <= max_urls one_page
  /\ (max_urls one_page = 1 ->
      forall u, u ∈ fetched after_only_page -> u = "https://a.example").
Proof.
  apply (crawl_invariants nat sample_get sample_body sample_images elements one_page
           sample_scraper fresh_session "https://a.example" after_only_page).
  apply rtc_once. exact sample_only_step.
Defined.

Lemma scrape_result_shapes_witness :
  snd (scrape nat sample_get sample_body sample_scraper "https://down.example")
    = GotException (ExternalError "net::ERR_CONNECTION_REFUSED")
  /\ snd (scrape nat sample_get sample_body sample_scraper "https://blank.example")
    = GotPair "" (UrlText "").
Proof.
  split.
  - destruct (scrape_result_shapes nat sample_get sample_body sample_scraper
                "https://down.example") as (Hfail & _ & _).
    apply (Hfail 1). vm_compute; reflexivity.
  - destruct (scrape_result_shapes nat sample_get sample_body sample_scraper
                "https://blank.example") as (_ & Hblank & _).
    apply (Hblank 1 "https://blank.example"); vm_compute; reflexivity.
Defined.

(** With a budget of one page and link following on, the sample crawl
    fetches the start page and nothing else. *)
Example single_page_crawl :
  match Multi_scrape nat sample_get sample_body sample_images elements 3
          sample_scraper fresh_session "https://a.example" one_page with
  | Some (out, c) => out = Returned None /\ fetched c = ["https://a.example"]
                     /\ urls_to_scrape c = [] /\ scraped_count c = 1
  | None => False
  end.
Proof. vm_compute. repeat split. Qed.

(** A page that cannot be loaded is reported and not counted. *)
Example failed_page_is_skipped :
  match Multi_scrape nat sample_get sample_body sample_images elements 3
          sample_scraper fresh_session "https://down.example" two_pages with
  | Some (out, c) =>
      out = Raised (AttributeError "st.session_state has no attribute 'urls'")
      /\ scraped_count c = 0 /\ fetched c = ["https://down.example"]
      /\ notices c = [Scraping 1 2 "https://down.example";
                      ScrapeFailed "https://down.example"
                        (TypeError "cannot unpack non-iterable exception object");
                      NothingScraped]
  | None => False
  end.
Proof. vm_compute. repeat split. Qed.

(** *** Page extraction *)

Import PyStrFacts.

Lemma link_fold_members (lines : list string) :
  forall (found : gset string) (u : string),
    u ∈ fold_left (fun found link =>
                     let target := strip_chars "[]" link in
                     if contains "https" target || contains "http" target
                     then found ∪ {[target]} else found) lines found
    <-> u ∈ found
        \/ exists line, line ∈ lines /\ u = strip_chars "[]" line
                        /\ contains "http" u = true.
Proof.
  induction lines as [|line lines IH]; intros found u; simpl.
  - split; [auto|]. intros [H|(line & Hin & _)]; [exact H | inversion Hin].
  - rewrite IH. clear IH.
    assert (Hhttp : contains "https" (strip_chars "[]" line)
                    || contains "http" (strip_chars "[]" line)
                    = contains "http" (strip_chars "[]" line)).
    { destruct (contains "https" (strip_chars "[]" line)) eqn:Hs; [|reflexivity].
      simpl. symmetry. apply (contains_append_l "http" "s"). exact Hs. }
    rewrite Hhttp. split.
    + intros [H|(l & Hin & Hu & Hc)].
      * destruct (contains "http" (strip_chars "[]" line)) eqn:Hc; [|by left].
        apply elem_of_union in H as [H|H]; [by left|].
        apply elem_of_singleton in H. subst u.
        right. exists line. split; [left | auto].
      * right. exists l. split; [by right | auto].
    + intros [H|(l & Hin & Hu & Hc)].
      * left. destruct (contains "http" (strip_chars "[]" line)); [|exact H].
        apply elem_of_union. by left.
      * apply elem_of_cons in Hin as [->|Hin].
        -- left. subst u. rewrite Hc. apply elem_of_union. right.
           by apply elem_of_singleton.
        -- right. exists l. auto.
Qed.

Lemma link_urls_members (cleaned u : string) :
  u ∈ link_urls cleaned
  <-> exists line, line ∈ splitlines cleaned /\ u = strip_chars "[]" line
                   /\ contains "http" u = true.
Proof.
  unfold link_urls. rewrite link_fold_members. split.
  - intros [H|H]; [|exact H]. by apply not_elem_of_empty in H.
  - auto.
Qed.

(** The cleaned text splits back into the lines it was joined from: the
    non-blank lines of the page text, each trimmed. *)
Lemma clean_lines_roundtrip (raw : string) :
  splitlines (clean_lines raw)
  = map strip (filter (fun line => truthy (strip line)) (splitlines raw)).
Proof.
  unfold clean_lines. apply splitlines_join.
  apply Forall_forall. intros line Hin.
  apply list_elem_of_In, in_map_iff in Hin as (source & <- & Hsource).
  apply list_elem_of_In, list_elem_of_filter in Hsource as [Hkeep Hsource].
  split; [by apply Is_true_true|].
  intros c Hc. apply mem_strip_by in Hc.
  pose proof (splitlines_pieces_free raw false) as Hfree.
  rewrite Forall_forall in Hfree.
  apply (Hfree source); [exact Hsource | exact Hc].
Qed.

Section Pages.
Variable World : Type.
Variable driver_get : World -> string -> World * Outcome string.
Variable body_text : string -> option string.
Variable img_sources : string -> list (option string).

(** When [scrape] gives a pair: the cleaned text has no blank line and no
    line with space at either end, and the links are exactly the lines of
    the cleaned text that contain "http", with the square brackets at their
    ends removed.  Such a link need not start with a scheme. *)
Theorem scrape_pair_contents (self : WebScraper World) (url cleaned : string)
  (members : gset string) :
  snd (scrape World driver_get body_text self url) = GotPair cleaned (UrlSet members) ->
  Forall (fun line => truthy line = true /\ strip line = line) (splitlines cleaned)
  /\ forall u, u ∈ members
       <-> exists line, line ∈ splitlines cleaned /\ u = strip_chars "[]" line
                        /\ contains "http" u = true.
Proof.
  unfold scrape. destruct (driver_get (world self) url) as [w [source|e]];
    [|discriminate].
  destruct (body_text source) as [raw|]; simpl; [|discriminate].
  intros Hpair. inversion Hpair; subst. split; [|apply link_urls_members].
  rewrite clean_lines_roundtrip. apply Forall_forall. intros line Hin.
  apply list_elem_of_In, in_map_iff in Hin as (source_line & <- & Hsource).
  apply list_elem_of_In, list_elem_of_filter in Hsource as [Hkeep _].
  split; [by apply Is_true_true | apply strip_idempotent].
Qed.

(** *** Images *)

Lemma images_loop_sound (url : string) (max_images : option Z)
  (images : list (option string)) :
  forall (i : Z) (found : list string),
    let result := images_loop url max_images i images found in
    (exists added, result = found ++ added
       /\ List.length added <= List.length images
       /\ (forall n, max_images = Some n -> (i <= n)%Z ->
             (Z.of_nat (List.length added) <= n - i + 1)%Z)
       /\ forall r, r ∈ added ->
            exists src, Some src ∈ images /\ src <> "" /\ r = resolve_src url src).
Proof.
  induction images as [|src rest IH]; intros i found; simpl.
  - exists []. rewrite app_nil_r. repeat split; simpl; auto; try lia.
    intros r Hr. inversion Hr.
  - set (step := match src with
                 | Some src0 => if truthy src0 then [resolve_src url src0] else []
                 | None => []
                 end).
    assert (Hfound : match src with
                     | Some src0 => if truthy src0 then found ++ [resolve_src url src0]
                                    else found
                     | None => found
                     end = found ++ step).
    { subst step. destruct src as [src0|]; [destruct (truthy src0)|];
        by rewrite ?app_nil_r. }
    assert (Hstep : List.length step <= 1
                    /\ forall r, r ∈ step ->
                         exists s0, Some s0 ∈ src :: rest /\ s0 <> ""
                                    /\ r = resolve_src url s0).
    { subst step. destruct src as [src0|]; [destruct src0 as [|c src0]|]; simpl.
      - split; [lia|]. intros r Hr. inversion Hr.
      - split; [lia|]. intros r Hr. apply list_elem_of_singleton in Hr.
        exists (String c src0). split; [left|]. split; [discriminate | exact Hr].
      - split; [lia|]. intros r Hr. inversion Hr. }
    destruct Hstep as [Hlen Horigin]. rewrite Hfound.
    destruct (bool_decide (max_images = Some i)) eqn:Hcap.
    + exists step. split; [reflexivity|]. split; [simpl; lia|]. split; [|exact Horigin].
      intros n Hn Hle. lia.
    + apply bool_decide_eq_false in Hcap.
      destruct (IH (i + 1)%Z (found ++ step)) as (added & Heq & Hcount & Hbound & Hfrom).
      exists (step ++ added). split; [by rewrite Heq, <- app_assoc|].
      split; [rewrite length_app; simpl; lia|]. split.
      * intros n Hn Hle. rewrite length_app.
        assert (i <> n) by congruence.
        specialize (Hbound n Hn). lia.
      * intros r Hr. apply elem_of_app in Hr as [Hr|Hr]; [by apply Horigin|].
        destruct (Hfrom r Hr) as (s0 & Hin & Hne & Hres).
        exists s0. split; [by right | auto].
Qed.

(** [extract_images] gives at most one URL per [img] element, each the
    resolved form of a non-empty [src]; with a cap of at least one it gives
    at most that many. *)
Theorem extract_images_bounded (self : WebScraper World) (url : string)
  (max_images : option Z) :
  let found := extract_images World img_sources self url max_images in
  List.length found <= List.length (img_sources (html self))
  /\ (forall n, max_images = Some n -> (1 <= n)%Z -> (Z.of_nat (List.length found) <= n)%Z)
  /\ forall r, r ∈ found ->
       exists src, Some src ∈ img_sources (html self) /\ src <> ""
                   /\ r = resolve_src url src.
Proof.
  unfold extract_images.
  destruct (images_loop_sound url max_images (img_sources (html self)) 1 [])
    as (added & Heq & Hcount & Hbound & Hfrom).
  simpl in *. rewrite Heq. repeat split; auto.
  intros n Hn Hle. specialize (Hbound n Hn Hle). lia.
Qed.

End Pages.

(** Resolving an image source: an absolute http(s) source is kept as it is,
    and in every case the result ends with the source. *)
Theorem resolve_src_keeps_source (url src : string) :
  (exists front, resolve_src url src = front +:+ src)
  /\ (startswith "//" src = false ->
      (startswith "http://" src || startswith "https://" src) = true ->
      resolve_src url src = src).
Proof.
  unfold resolve_src. split.
  - destruct (startswith "//" src); [eauto|].
    destruct (startswith "/" src); [eauto|].
    destruct (negb _).
    + exists (rstrip_chars "/" url +:+ "/"). symmetry. apply append_assoc.
    + exists "". reflexivity.
  - intros Hnet Habs. rewrite Hnet.
    assert (Hhead : String.prefix "h" src = true).
    { apply orb_true_iff in Habs as [H|H].
      - apply (prefix_append_l "h" "ttp://"). exact H.
      - apply (prefix_append_l "h" "ttps://"). exact H. }
    assert (Hroot : startswith "/" src = false).
    { destruct src as [|c src]; [reflexivity|]. unfold startswith.
      change (String.prefix "h" (String c src)) with
        (if ascii_dec "h" c then String.prefix "" src else false) in Hhead.
      destruct (ascii_dec "h" c) as [<-|]; [reflexivity | discriminate]. }
    rewrite Hroot, Habs. reflexivity.
Qed.

Lemma resolve_src_keeps_source_witness :
  (exists front, resolve_src "https://a.example/" "https://cdn.example/logo.png"
                 = front +:+ "https://cdn.example/logo.png")
  /\ resolve_src "https://a.example/" "https://cdn.example/logo.png"
     = "https://cdn.example/logo.png".
Proof.
  destruct (resolve_src_keeps_source "https://a.example/" "https://cdn.example/logo.png")
    as [Hfront Hsame].
  split; [exact Hfront | apply Hsame; reflexivity].
Defined.

Example resolve_src_relative :
  resolve_src "https://a.example/shop/" "img/logo.png" = "https://a.example/shop/img/logo.png"
  /\ resolve_src "https://a.example/shop/" "/img/logo.png" = "https://a.example/shop/img/logo.png"
  /\ resolve_src "https://a.example/shop/" "//cdn.example/logo.png" = "https://cdn.example/logo.png".
Proof. repeat split. Qed.

(** *** The sample web again *)

Lemma fetched_urls_wellformed_witness :
  (startswith "http://" "https://a.example" || startswith "https://" "https://a.example") = true
  /\ contains "cloudflare" "https://a.example" = false.
Proof.
  apply (fetched_urls_wellformed nat sample_get sample_body sample_images elements two_pages
           sample_scraper fresh_session "https://a.example" after_first_page
           "https://a.example").
  - apply rtc_once. exact sample_first_step.
  - vm_compute. left.
Defined.

Lemma crawl_only_grows_witness :
  (exists more,
     all_cleaned_text after_first_page
     = all_cleaned_text (initial nat sample_scraper fresh_session "https://a.example") +:+ more)
  /\ visited_urls (initial nat sample_scraper fresh_session "https://a.example")
     ⊆ visited_urls after_first_page
  /\ scraped_count (initial nat sample_scraper fresh_session "https://a.example")
     <= scraped_count after_first_page
  /\ fetched (initial nat sample_scraper fresh_session "https://a.example")
     `prefix_of` fetched after_first_page.
Proof.
  apply (crawl_only_grows nat sample_get sample_body sample_images elements two_pages).
  apply rtc_once. exact sample_first_step.
Defined.



Definition sample_cleaned : string :=
"Welcome" +:+ nl +:+ "next" +:+ nl +:+ "[https://cloudflare.example/challenge]".

Lemma scrape_pair_contents_witness :
  Forall (fun line => truthy line = true /\ strip line = line) (splitlines sample_cleaned)
  /\ forall u, u ∈ link_urls sample_cleaned
       <-> exists line, line ∈ splitlines sample_cleaned /\ u = strip_chars "[]" line
                        /\ contains "http" u = true.
Proof.
  apply (scrape_pair_contents nat sample_get sample_body sample_scraper "https://a.example"
           sample_cleaned (link_urls sample_cleaned)).
  vm_compute. reflexivity.
Defined.

(** A page with five [img] elements, one without [src] and one with an
    empty one. *)
Definition gallery_images (source : string) : list (option string) :=
[Some "/logo.png"; None; Some ""; Some "photos/one.jpg"; Some "//cdn.example/two.jpg"].

Example extract_images_sample :
  extract_images nat gallery_images sample_scraper "https://a.example/shop/" (Some 4%Z)
  = ["https://a.example/shop/logo.png"; "https://a.example/shop/photos/one.jpg"]
  /\ extract_images nat gallery_images sample_scraper "https://a.example/shop/" (Some 0%Z)
     = ["https://a.example/shop/logo.png"; "https://a.example/shop/photos/one.jpg";
        "https://cdn.example/two.jpg"].
Proof. split; reflexivity. Qed.

Lemma extract_images_bounded_witness :
  List.length (extract_images nat gallery_images sample_scraper
                 "https://a.example/shop/" (Some 2%Z)) <= 5
  /\ (Z.of_nat (List.length (extract_images nat gallery_images sample_scraper
                               "https://a.example/shop/" (Some 2%Z))) <= 2)%Z.
Proof.
  destruct (extract_images_bounded nat gallery_images sample_scraper
              "https://a.example/shop/" (Some 2%Z)) as (Hcount & Hcap & _).
  split; [exact Hcount | apply Hcap; [reflexivity | lia]].
Defined.

End ScraperFacts.

(** ** Table coercion *)

Module TableFacts.
Import PyStr Table.

(** What one line after the separator adds to the table. *)
Definition kept_row (header : list string) (line : string) : list Row :=
if is_data_line line && (List.length (cells line) =? List.length header)%nat
then [dict_zip header (cells line)]
else [].

Lemma collect_rows_acc (header : list string) (lines : list string) :
  forall table : list Row,
    collect_rows header lines table = table ++ flat_map (kept_row header) lines.
Proof.
  induction lines as [|line rest IH]; intros table; simpl.
  - by rewrite app_nil_r.
  - unfold kept_row at 1, is_data_line.
    destruct (negb (truthy (strip line)) || negb (contains "|" line)); simpl.
    + apply IH.
    + destruct (List.length (cells line) =? List.length header)%nat; simpl.
      * rewrite IH, <- app_assoc. reflexivity.
      * apply IH.
Qed.

Lemma kept_row_iff (header : list string) (line : string) :
  is_data_line line = true ->
  (kept_row header line = [dict_zip header (cells line)]
   <-> List.length (cells line) = List.length header)
  /\ (kept_row header line = []
      <-> List.length (cells line) <> List.length header).
Proof.
  intros Hdata. unfold kept_row. rewrite Hdata. simpl.
  destruct (Nat.eqb_spec (List.length (cells line)) (List.length header)) as [Heq|Hne].
  - split; split; intros H; try reflexivity; try assumption; try discriminate.
    contradiction.
  - split; split; intros H; try reflexivity; try assumption; try discriminate.
    contradiction.
Qed.

Definition sample_table : string :=
"a|b" +:+ nl +:+ "--|--" +:+ nl +:+ "1|2" +:+ nl +:+ "3|4".

Definition ragged_table : string :=
"| a | b |" +:+ nl +:+ "|---|---|" +:+ nl +:+ "| 1 | 2 | 3 |" +:+ nl +:+ "| 3 | 4 |".

(** C9: the empty string and any text without a pipe give the empty table;
    when a header line is found, the table holds, in order, one record for
    every later line (past the separator) that is not blank, contains a pipe
    and has as many cells as the header, and nothing for any other line; the
    sample table gives the two records [a:1, b:2] and [a:3, b:4].  The
    function is total: no input makes it fail. *)
Theorem Result_to_dataframe_rows (table : string) :
  Result_to_dataframe "" = []
  /\ (contains "|" table = false -> Result_to_dataframe table = [])
  /\ (forall header_line,
        truthy table = true -> contains "|" table = true ->
        find_header 0 (table_lines table) = Some header_line ->
        let header := cells (nth header_line (table_lines table) "") in
        Result_to_dataframe table
          = flat_map (kept_row header) (skipn (header_line + 2) (table_lines table))
        /\ forall line, is_data_line line = true ->
             (kept_row header line = [dict_zip header (cells line)]
              <-> List.length (cells line) = List.length header)
             /\ (kept_row header line = []
                 <-> List.length (cells line) <> List.length header))
  /\ Result_to_dataframe sample_table
     = [[("a", "1"); ("b", "2")]; [("a", "3"); ("b", "4")]].
Proof.
  split; [reflexivity|]. split; [|split; [|reflexivity]].
  - intros Hpipe. unfold Result_to_dataframe. rewrite Hpipe.
    by rewrite orb_true_r.
  - intros header_line Hnonempty Hpipe Hfound header.
    split; [|intros line; apply kept_row_iff].
    unfold Result_to_dataframe. rewrite Hnonempty, Hpipe, Hfound. simpl.
    apply (collect_rows_acc _ _ []).
Qed.

Lemma Result_to_dataframe_rows_witness :
  Result_to_dataframe "no pipes here" = []
  /\ Result_to_dataframe ragged_table = [[("a", "3"); ("b", "4")]]
  /\ kept_row ["a"; "b"] "| 1 | 2 | 3 |" = [].
Proof.
  split; [|split].
  - destruct (Result_to_dataframe_rows "no pipes here") as (_ & Hnone & _).
    apply Hnone. reflexivity.
  - destruct (Result_to_dataframe_rows ragged_table) as (_ & _ & Hrows & _).
    destruct (Hrows 0) as [Heq _]; [reflexivity..|].
    rewrite Heq. reflexivity.
  - destruct (Result_to_dataframe_rows ragged_table) as (_ & _ & Hrows & _).
    destruct (Hrows 0) as [_ Hiff]; [reflexivity..|].
    apply (Hiff "| 1 | 2 | 3 |"); [reflexivity|]. simpl. discriminate.
Defined.

Example header_only_table : Result_to_dataframe "| a | b |" = [].
Proof. reflexivity. Qed.

(** A repeated column name keeps its first position and its last cell. *)
Example repeated_column :
  Result_to_dataframe ("x|x" +:+ nl +:+ "-|-" +:+ nl +:+ "1|2") = [[("x", "2")]].
Proof. reflexivity. Qed.

(** *** Further properties of the table *)

Import PyStrFacts.

(** The header the function works with ([[]] when none is found). *)
Definition header_of (table : string) : list string :=
match find_header 0 (table_lines table) with
| Some header_line => cells (nth header_line (table_lines table) "")
| None => []
end.

Lemma find_header_bound (lines : list string) :
  forall i header_line, find_header i lines = Some header_line ->
    i <= header_line < i + List.length lines.
Proof.
  induction lines as [|line rest IH]; intros i header_line Hfind; simpl in *.
  - discriminate.
  - destruct (is_header line).
    + inversion Hfind; subst. lia.
    + apply IH in Hfind. lia.
Qed.

Lemma find_header_is_header (lines : list string) :
  forall i header_line, find_header i lines = Some header_line ->
    is_header (nth (header_line - i) lines "") = true.
Proof.
  induction lines as [|line rest IH]; intros i header_line Hfind; simpl in *.
  - discriminate.
  - destruct (is_header line) eqn:Hline.
    + inversion Hfind; subst. rewrite Nat.sub_diag. exact Hline.
    + pose proof (find_header_bound _ _ _ Hfind) as Hb.
      apply IH in Hfind.
      destruct (header_line - i) as [|k] eqn:Hk; [lia|].
      replace (header_line - S i) with k in Hfind by lia. exact Hfind.
Qed.

(** Every row of the table comes from one line after the separator. *)
Lemma Result_to_dataframe_row_origin (table : string) (row : Row) :
  row ∈ Result_to_dataframe table ->
  exists line, is_data_line line = true
    /\ List.length (cells line) = List.length (header_of table)
    /\ row = dict_zip (header_of table) (cells line).
Proof.
  unfold Result_to_dataframe, header_of.
  destruct (negb (truthy table) || negb (contains "|" table)).
  { intros H. inversion H. }
  destruct (find_header 0 (table_lines table)) as [header_line|].
  2:{ intros H. inversion H. }
  rewrite (collect_rows_acc _ _ []). simpl. intros Hin.
  apply list_elem_of_In, in_flat_map in Hin as (line & _ & Hin).
  unfold kept_row in Hin.
  destruct (is_data_line line) eqn:Hdata; [|destruct Hin].
  destruct (Nat.eqb_spec (List.length (cells line))
              (List.length (cells (nth header_line (table_lines table) ""))))
    as [Heq|Hne]; simpl in Hin; [|destruct Hin].
  destruct Hin as [<-|[]]. exists line. auto.
Qed.

Lemma dict_set_keys (key value : string) (d : Row) :
  map fst (dict_set key value d)
  = if bool_decide (key ∈ map fst d) then map fst d else map fst d ++ [key].
Proof.
  induction d as [|[k v] d IH]; simpl; [reflexivity|].
  destruct (String.eqb_spec k key) as [->|Hne]; simpl.
  - rewrite bool_decide_eq_true_2 by left. reflexivity.
  - rewrite IH. destruct (bool_decide (key ∈ map fst d)) eqn:Hin.
    + apply bool_decide_eq_true in Hin.
      rewrite bool_decide_eq_true_2 by (by right). reflexivity.
    + apply bool_decide_eq_false in Hin.
      rewrite bool_decide_eq_false_2; [reflexivity|].
      intros Hk. apply elem_of_cons in Hk as [Hk|Hk]; congruence.
Qed.

Lemma dict_set_fresh (key value : string) (d : Row) :
  key ∉ map fst d -> dict_set key value d = d ++ [(key, value)].
Proof.
  induction d as [|[k v] d IH]; simpl; intros Hfresh; [reflexivity|].
  destruct (String.eqb_spec k key) as [->|Hne].
  - exfalso. apply Hfresh. left.
  - rewrite IH; [reflexivity|]. intros Hin. apply Hfresh. by right.
Qed.

Lemma dict_set_values (key value : string) (d : Row) (v : string) :
  v ∈ map snd (dict_set key value d) -> v = value \/ v ∈ map snd d.
Proof.
  induction d as [|[k w] d IH]; simpl.
  - intros H. apply list_elem_of_singleton in H. auto.
  - destruct (String.eqb k key); simpl; intros H; apply elem_of_cons in H as [H|H].
    + auto.
    + right. by right.
    + right. rewrite H. left.
    + destruct (IH H) as [?|?]; [auto|]. right. by right.
Qed.

Definition dict_step (d : Row) (kv : string * string) : Row :=
dict_set (fst kv) (snd kv) d.

Lemma dict_fold_keys (pairs : list (string * string)) :
  forall d : Row,
    NoDup (map fst d) ->
    let result := fold_left dict_step pairs d in
    NoDup (map fst result)
    /\ (forall k, k ∈ map fst result <-> k ∈ map fst d \/ k ∈ map fst pairs)
    /\ (forall v, v ∈ map snd result -> v ∈ map snd d \/ v ∈ map snd pairs)
    /\ (NoDup (map fst d ++ map fst pairs) -> result = d ++ pairs).
Proof.
  induction pairs as [|[k v] pairs IH]; intros d Hnd; simpl.
  - repeat split; auto.
    + intros [H|H]; [exact H | inversion H].
    + intros _. by rewrite app_nil_r.
  - assert (Hnd' : NoDup (map fst (dict_step d (k, v)))).
    { unfold dict_step. simpl. rewrite dict_set_keys.
      destruct (bool_decide (k ∈ map fst d)) eqn:Hin; [exact Hnd|].
      apply bool_decide_eq_false in Hin. apply NoDup_app. repeat split; auto.
      - intros x Hx Hx'. apply list_elem_of_singleton in Hx'. subst. auto.
      - apply NoDup_singleton. }
    destruct (IH (dict_step d (k, v)) Hnd') as (H1 & H2 & H3 & H4).
    split; [exact H1|]. split; [|split].
    + intros x. rewrite H2. unfold dict_step. simpl. rewrite dict_set_keys.
      destruct (bool_decide (k ∈ map fst d)) eqn:Hin.
      * apply bool_decide_eq_true in Hin. split.
        -- intros [H|H]; [by left | right; by right].
        -- intros [H|H]; [by left|]. apply elem_of_cons in H as [->|H]; auto.
      * split.
        -- intros [H|H]; [|right; by right].
           apply elem_of_app in H as [H|H]; [by left|].
           apply list_elem_of_singleton in H. subst. right. left.
        -- intros [H|H]; [left; apply elem_of_app; by left|].
           apply elem_of_cons in H as [->|H]; [|by right].
           left. apply elem_of_app. right. left.
    + intros x Hx. destruct (H3 x Hx) as [H|H]; [|right; by right].
      unfold dict_step in H. simpl in H.
      destruct (dict_set_values k v d x H) as [->|H']; [right; left | by left].
    + intros Hall. rewrite H4.
      * unfold dict_step. simpl. rewrite dict_set_fresh; [by rewrite <- app_assoc|].
        intros Hin. apply NoDup_app in Hall as (_ & Hdisj & _).
        apply (Hdisj k Hin). left.
      * unfold dict_step. simpl. rewrite dict_set_keys.
        rewrite bool_decide_eq_false_2.
        -- rewrite <- app_assoc. exact Hall.
        -- intros Hin. apply NoDup_app in Hall as (_ & Hdisj & _).
           apply (Hdisj k Hin). left.
Qed.

Lemma combine_keys (header cols : list string) :
  List.length cols = List.length header ->
  map fst (combine header cols) = header /\ map snd (combine header cols) = cols.
Proof.
  revert cols; induction header as [|h header IH]; intros [|c cols] Hlen;
    simpl in *; try discriminate; [auto|].
  destruct (IH cols) as [H1 H2]; [lia|]. rewrite H1, H2. auto.
Qed.

(** The columns of the table: every record has exactly the column names of
    the header, each once, and when the header names are distinct every
    record pairs the header, in order, with the cells of its line. *)
Theorem Result_to_dataframe_columns (table : string) (row : Row) :
  row ∈ Result_to_dataframe table ->
  NoDup (map fst row)
  /\ (forall name, name ∈ map fst row <-> name ∈ header_of table)
  /\ (NoDup (header_of table) ->
      exists line, is_data_line line = true
        /\ row = combine (header_of table) (cells line)
        /\ List.length row = List.length (header_of table)).
Proof.
  intros Hrow.
  destruct (Result_to_dataframe_row_origin table row Hrow) as (line & Hdata & Hlen & ->).
  destruct (combine_keys _ _ Hlen) as [Hkeys Hvals].
  destruct (dict_fold_keys (combine (header_of table) (cells line)) [])
    as (H1 & H2 & _ & H4); [constructor|].
  split; [exact H1|]. split.
  - intros name. unfold dict_zip. fold dict_step. rewrite H2, Hkeys. simpl. split.
    + intros [H|H]; [inversion H | exact H].
    + auto.
  - intros Hnd. exists line. split; [exact Hdata|].
    unfold dict_zip. fold dict_step. rewrite H4 by (simpl; by rewrite Hkeys).
    simpl. split; [reflexivity|].
    rewrite length_combine. lia.
Qed.

Lemma Result_to_dataframe_columns_witness :
  NoDup (map fst [("a", "3"); ("b", "4")])
  /\ (forall name, name ∈ map fst [("a", "3"); ("b", "4")] <-> name ∈ header_of ragged_table)
  /\ (NoDup (header_of ragged_table) ->
      exists line, is_data_line line = true
        /\ [("a", "3"); ("b", "4")] = combine (header_of ragged_table) (cells line)
        /\ List.length [("a", "3"); ("b", "4")] = List.length (header_of ragged_table)).
Proof.
  apply (Result_to_dataframe_columns ragged_table [("a", "3"); ("b", "4")]).
  vm_compute. left.
Defined.

Lemma cells_clean (line : string) :
  Forall (fun cell => strip cell = cell /\ contains "|" cell = false) (cells line).
Proof.
  unfold cells. apply Forall_forall. intros cell Hin.
  apply list_elem_of_In, in_map_iff in Hin as (piece & <- & Hpiece).
  split; [apply strip_idempotent|].
  pose proof (split_pieces_free "|" (strip_chars "|" line)) as Hfree.
  rewrite Forall_forall in Hfree. specialize (Hfree piece (proj2 (list_elem_of_In _ _) Hpiece)).
  rewrite contains_char.
  destruct (mem "|" (strip piece)) eqn:Hmem; [|reflexivity].
  apply mem_strip_by in Hmem. congruence.
Qed.

(** Every column name and every cell of the table is trimmed and holds no
    pipe character. *)
Theorem Result_to_dataframe_cells_clean (table : string) (row : Row) (name value : string) :
  row ∈ Result_to_dataframe table -> (name, value) ∈ row ->
  (strip name = name /\ contains "|" name = false)
  /\ (strip value = value /\ contains "|" value = false).
Proof.
  intros Hrow Hcell.
  destruct (Result_to_dataframe_row_origin table row Hrow) as (line & Hdata & Hlen & ->).
  destruct (combine_keys _ _ Hlen) as [Hkeys Hvals].
  destruct (dict_fold_keys (combine (header_of table) (cells line)) [])
    as (_ & H2 & H3 & _); [constructor|].
  unfold dict_zip in Hcell. fold dict_step in Hcell. split.
  - assert (Hname : name ∈ header_of table).
    { rewrite <- Hkeys. specialize (H2 name). simpl in H2.
      destruct (proj1 H2) as [H|H]; [|inversion H | exact H].
      apply (list_elem_of_fmap_2 fst) in Hcell. exact Hcell. }
    unfold header_of in Hname.
    destruct (find_header 0 (table_lines table)); [|inversion Hname].
    pose proof (cells_clean (nth n (table_lines table) "")) as Hclean.
    rewrite Forall_forall in Hclean. exact (Hclean name Hname).
  - assert (Hvalue : value ∈ cells line).
    { rewrite <- Hvals. destruct (H3 value) as [H|H]; [|inversion H | exact H].
      apply (list_elem_of_fmap_2 snd) in Hcell. exact Hcell. }
    pose proof (cells_clean line) as Hclean.
    rewrite Forall_forall in Hclean. exact (Hclean value Hvalue).
Qed.

Lemma Result_to_dataframe_cells_clean_witness :
  (strip "b" = "b" /\ contains "|" "b" = false)
  /\ (strip "4" = "4" /\ contains "|" "4" = false).
Proof.
  apply (Result_to_dataframe_cells_clean ragged_table [("a", "3"); ("b", "4")] "b" "4").
  - vm_compute. left.
  - right. left.
Defined.

(** The header line and the line after it never give a record: the table
    has at most as many records as the text has lines after those two. *)
Theorem Result_to_dataframe_size (table : string) :
  List.length (Result_to_dataframe table) <= List.length (table_lines table) - 2.
Proof.
  unfold Result_to_dataframe.
  destruct (negb (truthy table) || negb (contains "|" table)); [simpl; lia|].
  destruct (find_header 0 (table_lines table)) as [header_line|] eqn:Hfind; [|simpl; lia].
  rewrite (collect_rows_acc _ _ []). simpl.
  transitivity (List.length (skipn (header_line + 2) (table_lines table))).
  - generalize (skipn (header_line + 2) (table_lines table)). intros lines.
    induction lines as [|line rest IH]; simpl; [lia|].
    rewrite length_app. unfold kept_row at 1.
    destruct (_ && _); simpl; lia.
  - rewrite length_skipn. lia.
Qed.

End TableFacts.

(** ** Image download *)

Module FilesFacts.
Import PyStr Files.

Section Saving.
Variable out : Outside.
Variable path : string.

(** With a cap, a pass at or past the cap that does not raise ends the
    loop; so from index [i] on at most [max 1 (cap - i + 1)] files are
    written. *)
Lemma save_loop_cap (cap : Z) (urls : list string) :
  forall (i : nat) (sv : Saved),
    (Z.of_nat (List.length (files (save_loop out path (Some cap) i urls sv)))
     <= Z.of_nat (List.length (files sv)) + Z.max 1 (cap - Z.of_nat i + 1))%Z.
Proof.
  induction urls as [|url rest IH]; intros i sv; simpl; [lia|].
  destruct (requests_get out i url) as [response|e].
  - destruct (status_code response =? 200)%Z.
    + destruct (open_write out _) as [e|].
      * specialize (IH (S i) (add_report (DownloadError i e)
                                {| files := files sv; requested := requested sv ++ [url];
                                   reports := reports sv |})).
        simpl in IH. lia.
      * destruct (Z.leb_spec cap (Z.of_nat i)).
        -- simpl. rewrite length_app. simpl. lia.
        -- match goal with
           | |- context [save_loop out path (Some cap) (S i) rest ?sv'] =>
               specialize (IH (S i) sv')
           end.
           simpl in IH. rewrite length_app in IH. simpl in IH. lia.
    + destruct (Z.leb_spec cap (Z.of_nat i)).
      * simpl. lia.
      * match goal with
        | |- context [save_loop out path (Some cap) (S i) rest ?sv'] =>
            specialize (IH (S i) sv')
        end.
        simpl in IH. lia.
  - specialize (IH (S i) (add_report (DownloadError i e)
                            {| files := files sv; requested := requested sv ++ [url];
                               reports := reports sv |})).
    simpl in IH. lia.
Qed.

(** Where the files come from: the file written in pass [i] holds what the
    [i]-th URL answered with status 200, under the name made of the path,
    the pass number and the extension picked for that URL. *)
Definition from_pass (urls : list string) (first : nat) (file : string * string) : Prop :=
exists k url response,
  urls !! k = Some url
  /\ requests_get out (first + k) url = Returned response
  /\ status_code response = 200%Z
  /\ file = (path +:+ image_name (first + k) (extension_of url), content response).

Lemma save_loop_files (max_images : option Z) (urls : list string) :
  forall (i : nat) (sv : Saved),
    exists added,
      files (save_loop out path max_images i urls sv) = files sv ++ added
      /\ Forall (from_pass urls i) added
      /\ exists asked, requested (save_loop out path max_images i urls sv)
                       = requested sv ++ asked
                       /\ asked `prefix_of` urls.
Proof.
  induction urls as [|url rest IH]; intros i sv; simpl.
  - exists []. rewrite app_nil_r. split; [reflexivity|]. split; [constructor|].
    exists []. rewrite app_nil_r. split; reflexivity.
  - assert (Hshift : forall added, Forall (from_pass rest (S i)) added ->
                       Forall (from_pass (url :: rest) i) added).
    { intros added Hall. eapply Forall_impl; [exact Hall|].
      intros file (k & u & r & Hk & Hget & Hst & Hfile).
      exists (S k), u, r. replace (i + S k) with (S i + k) by lia. auto. }
    assert (Hnext : forall sv',
              files sv' = files sv -> requested sv' = requested sv ++ [url] ->
              exists added,
                files (save_loop out path max_images (S i) rest sv') = files sv ++ added
                /\ Forall (from_pass (url :: rest) i) added
                /\ exists asked, requested (save_loop out path max_images (S i) rest sv')
                                 = requested sv ++ asked
                                 /\ asked `prefix_of` url :: rest).
    { intros sv' Hf Hr. destruct (IH (S i) sv') as (added & Heq & Hall & asked & Hreq & Hpre).
      exists added. rewrite Heq, Hf. split; [reflexivity|]. split; [auto|].
      exists (url :: asked). rewrite Hreq, Hr, <- app_assoc. split; [reflexivity|].
      by apply prefix_cons. }
    assert (Hwrite : forall response sv' name,
              requests_get out i url = Returned response ->
              status_code response = 200%Z ->
              name = path +:+ image_name i (extension_of url) ->
              files sv' = files sv ++ [(name, content response)] ->
              requested sv' = requested sv ++ [url] ->
              exists added,
                files (save_loop out path max_images (S i) rest sv') = files sv ++ added
                /\ Forall (from_pass (url :: rest) i) added
                /\ exists asked, requested (save_loop out path max_images (S i) rest sv')
                                 = requested sv ++ asked
                                 /\ asked `prefix_of` url :: rest).
    { intros response sv' name Hget Hst Hname Hf Hr.
      destruct (IH (S i) sv') as (added & Heq & Hall & asked & Hreq & Hpre).
      exists ((name, content response) :: added). rewrite Heq, Hf, <- app_assoc.
      split; [reflexivity|]. split.
      - constructor; [|auto]. exists 0, url, response.
        rewrite Nat.add_0_r. subst name. auto.
      - exists (url :: asked). rewrite Hreq, Hr, <- app_assoc. split; [reflexivity|].
        by apply prefix_cons. }
    assert (Hstop : forall added,
              Forall (from_pass (url :: rest) i) added ->
              exists added',
                files sv ++ added = files sv ++ added'
                /\ Forall (from_pass (url :: rest) i) added'
                /\ exists asked, requested sv ++ [url] = requested sv ++ asked
                                 /\ asked `prefix_of` url :: rest).
    { intros added Hall. exists added. split; [reflexivity|]. split; [exact Hall|].
      exists [url]. split; [reflexivity|]. apply prefix_cons, prefix_nil. }
    destruct (requests_get out i url) as [response|e] eqn:Hget;
      [|apply Hnext; reflexivity].
    destruct (Z.eqb_spec (status_code response) 200) as [Hst|Hst].
    + destruct (open_write out _) as [e|]; [apply Hnext; reflexivity|].
      destruct max_images as [cap|].
      * destruct (cap <=? Z.of_nat i)%Z.
        -- simpl. apply (Hstop [_]). constructor; [|constructor].
           exists 0, url, response. rewrite Nat.add_0_r. auto.
        -- eapply Hwrite; eauto.
      * eapply Hwrite; eauto.
    + destruct max_images as [cap|].
      * destruct (cap <=? Z.of_nat i)%Z.
        -- simpl. exists []. rewrite app_nil_r. split; [reflexivity|].
           split; [constructor|]. exists [url]. split; [reflexivity|].
           apply prefix_cons, prefix_nil.
        -- apply Hnext; reflexivity.
      * apply Hnext; reflexivity.
Qed.

(** Without a cap the loop never ends early: every URL is requested, and
    every pass ends in a reported error. *)
Lemma save_loop_uncapped (urls : list string) :
  forall (i : nat) (sv : Saved),
    let sv' := save_loop out path None i urls sv in
    requested sv' = requested sv ++ urls
    /\ List.length (reports sv) + List.length urls <= List.length (reports sv').
Proof.
  induction urls as [|url rest IH]; intros i sv; simpl.
  - rewrite app_nil_r. split; [reflexivity | lia].
  - assert (Hnext : forall sv',
              requested sv' = requested sv ++ [url] ->
              List.length (reports sv) + 1 <= List.length (reports sv') ->
              requested (save_loop out path None (S i) rest sv') = requested sv ++ url :: rest
              /\ List.length (reports sv) + S (List.length rest)
                 <= List.length (reports (save_loop out path None (S i) rest sv'))).
    { intros sv' Hreq Hrep. destruct (IH (S i) sv') as [Hreq' Hrep'].
      rewrite Hreq', Hreq, <- app_assoc. split; [reflexivity | lia]. }
    destruct (requests_get out i url) as [response|e].
    + destruct (status_code response =? 200)%Z.
      * destruct (open_write out _) as [e|]; apply Hnext; simpl;
          rewrite ?length_app; simpl; auto; lia.
      * apply Hnext; simpl; rewrite ?length_app; simpl; auto; lia.
    + apply Hnext; simpl; rewrite ?length_app; simpl; auto; lia.
Qed.

(** [save_images] with a cap of at least one writes at most that many
    files, whatever fails on the way. *)
Theorem save_images_cap (urls : list string) (cap : Z) :
  (1 <= cap)%Z ->
  (Z.of_nat (List.length (files (snd (save_images out path urls (Some cap))))) <= cap)%Z.
Proof.
  intros Hcap. unfold save_images. destruct (makedirs out path); simpl; [lia|].
  pose proof (save_loop_cap cap urls 1 {| files := []; requested := []; reports := [] |})
    as Hbound.
  simpl in Hbound. lia.
Qed.

(** Every file [save_images] writes holds the content of a URL answered
    with status 200, is named by the path, the position of the URL in the
    list (counted from one) and one of the four extensions; and the URLs
    requested are an initial part of the list. *)
Theorem save_images_files (urls : list string) (max_images : option Z) :
  let saved := snd (save_images out path urls max_images) in
  Forall (fun file =>
            exists k url response,
              urls !! k = Some url
              /\ requests_get out (S k) url = Returned response
              /\ status_code response = 200%Z
              /\ file = (path +:+ image_name (S k) (extension_of url), content response)
              /\ extension_of url ∈ ["png"; "jpg"; "jpeg"; "svg"])
         (files saved)
  /\ requested saved `prefix_of` urls.
Proof.
  unfold save_images. destruct (makedirs out path); simpl.
  { split; [constructor | apply prefix_nil]. }
  destruct (save_loop_files max_images urls 1
              {| files := []; requested := []; reports := [] |})
    as (added & Heq & Hall & asked & Hreq & Hpre).
  simpl in *. rewrite Heq, Hreq. split; [|exact Hpre].
  eapply Forall_impl; [exact Hall|].
  intros file (k & url & response & Hk & Hget & Hst & Hfile).
  exists k, url, response. repeat split; auto.
  unfold extension_of.
  destruct (endswith ".png" url); [set_solver|].
  destruct (endswith ".jpg" url); [set_solver|].
  destruct (endswith ".jpeg" url); [set_solver|].
  destruct (endswith ".svg" url); set_solver.
Qed.

(** When the directory cannot be made the call raises and nothing is
    requested; when [max_images] is [None] every URL is requested and an
    error is reported for each. *)
Theorem save_images_without_cap (urls : list string) :
  makedirs out path = None ->
  let saved := snd (save_images out path urls None) in
  fst (save_images out path urls None) = Returned tt
  /\ requested saved = urls
  /\ List.length urls <= List.length (reports saved).
Proof.
  intros Hdir. unfold save_images. rewrite Hdir. simpl.
  destruct (save_loop_uncapped urls 1 {| files := []; requested := []; reports := [] |})
    as [Hreq Hrep].
  simpl in *. auto.
Qed.

End Saving.

(** *** A sample download *)

(** The second request is refused; every other URL is answered with
    status 200 and its own name as content. *)
Definition sample_outside : Outside :=
{| requests_get := fun i url =>
     match i with
     | 2 => Raised (ExternalError "connection refused")
     | _ => Returned {| status_code := 200; content := url |}
     end;
   makedirs := fun _ => None;
   open_write := fun _ => None |}.

Definition sample_urls : list string :=
["https://a.example/one.jpg"; "https://a.example/two.png"; "https://a.example/three.svg";
 "https://a.example/four"].

(** The failed second pass skips the test of the cap, so with a cap of two
    the third URL is still downloaded. *)
Example save_images_past_cap :
  snd (save_images sample_outside "./images/" sample_urls (Some 2%Z))
  = {| files := [("./images/image1.jpg", "https://a.example/one.jpg");
                 ("./images/image3.svg", "https://a.example/three.svg")];
       requested := ["https://a.example/one.jpg"; "https://a.example/two.png";
                     "https://a.example/three.svg"];
       reports := [DownloadError 2 (ExternalError "connection refused")] |}.
Proof. reflexivity. Qed.

Lemma save_images_cap_witness :
  (Z.of_nat (List.length (files (snd (save_images sample_outside "./images/"
                                        sample_urls (Some 2%Z))))) <= 2)%Z.
Proof. apply (save_images_cap sample_outside "./images/" sample_urls 2). lia. Defined.

Lemma save_images_without_cap_witness :
  fst (save_images sample_outside "./images/" sample_urls None) = Returned tt
  /\ requested (snd (save_images sample_outside "./images/" sample_urls None)) = sample_urls
  /\ List.length sample_urls
     <= List.length (reports (snd (save_images sample_outside "./images/" sample_urls None))).
Proof.
  apply (save_images_without_cap sample_outside "./images/" sample_urls). reflexivity.
Defined.

End FilesFacts.

(** ** The extraction request of the application *)

Module AppFacts.
Import PyStr App.

Lemma with_history_start (st : AppState) :
  with_history st (Engine.start (chat_history st)) = st.
Proof. destruct st as [? [h|] ? ?]; reflexivity. Qed.

(** With chunking switched on, a request on scraped content never gets an
    answer, whatever the model: the entry point for chunked extraction
    fails (or returns [None]) before any model call, the application reports
    a parsing error and returns [None], and the session state, chat history
    included, is as it was. *)
Theorem chunked_request_always_fails (T : Engine.Transport) (config : ScrapingConfig)
  (api_key : string) (st : AppState) (parse_description content : string) :
  chunking config = true -> truthy api_key = true -> dom_content st = Some content ->
  let run := process_extraction_request T config api_key st parse_description in
  result run = Returned None
  /\ state run = st
  /\ Engine.calls (engine run) = []
  /\ exists msg, shown run = [UserMessage parse_description; ParsingError msg].
Proof.
  intros Hchunk Hkey Hcontent. unfold process_extraction_request.
  rewrite Hcontent, Hkey, Hchunk.
  destruct (Chunker.dom_content_length content Chunker.default_max_length)
    as [chunks|e].
  - unfold Engine.process_with_chunking. simpl.
    destruct (contains "gemini" (model config));
      [|destruct (contains "deepseek" (model config))]; simpl;
      rewrite with_history_start;
      (split; [reflexivity|]); (split; [reflexivity|]); (split; [reflexivity|]);
      eexists; reflexivity.
  - simpl. split; [reflexivity|]. split; [reflexivity|]. split; [reflexivity|].
    eexists; reflexivity.
Qed.

Definition scraped_state : AppState :=
{| dom_content := Some "Price list: apples 3, pears 4";
   chat_history := Some []; parsed_result := None; parsed_description := None |}.

Lemma chunked_request_always_fails_witness :
  let run := process_extraction_request (EngineFacts.answering "| a |")
               {| chunking := true; model := "gemini-2.0-flash" |} "key"
               scraped_state "prices" in
  result run = Returned None
  /\ state run = scraped_state
  /\ Engine.calls (engine run) = []
  /\ exists msg, shown run = [UserMessage "prices"; ParsingError msg].
Proof.
  apply (chunked_request_always_fails (EngineFacts.answering "| a |")
           {| chunking := true; model := "gemini-2.0-flash" |} "key"
           scraped_state "prices" "Price list: apples 3, pears 4"); reflexivity.
Defined.

(** Without an API key a request on scraped content does nothing but warn:
    no model call, no change of the session state. *)
Theorem request_without_key (T : Engine.Transport) (config : ScrapingConfig)
  (st : AppState) (parse_description content : string) :
  dom_content st = Some content ->
  let run := process_extraction_request T config "" st parse_description in
  result run = Returned None /\ state run = st
  /\ Engine.calls (engine run) = [] /\ shown run = [ApiKeyWarning].
Proof.
  intros Hcontent. unfold process_extraction_request. rewrite Hcontent. simpl. auto.
Qed.

Lemma request_without_key_witness :
  let run := process_extraction_request EngineFacts.unreachable
               {| chunking := false; model := "gemini-2.0-flash" |} ""
               scraped_state "prices" in
  result run = Returned None /\ state run = scraped_state
  /\ Engine.calls (engine run) = [] /\ shown run = [ApiKeyWarning].
Proof.
  apply (request_without_key EngineFacts.unreachable
           {| chunking := false; model := "gemini-2.0-flash" |}
           scraped_state "prices" "Price list: apples 3, pears 4").
  reflexivity.
Defined.

(** A request on scraped content never raises.  It returns a table exactly
    when it has stored a parsed result, and the table is then the coercion
    of that result; otherwise it returns [None] and what was stored before
    stays. *)
Theorem request_on_content (T : Engine.Transport) (config : ScrapingConfig)
  (api_key : string) (st : AppState) (parse_description content : string) :
  dom_content st = Some content ->
  let run := process_extraction_request T config api_key st parse_description in
  (exists table, result run = Returned (Some table)
     /\ exists text, parsed_result (state run) = Some text
          /\ table = Table.Result_to_dataframe text
          /\ parsed_description (state run) = Some parse_description
          /\ chat_history (state run) = Engine.history (engine run)
          /\ shown run = [UserMessage parse_description; ParsingComplete])
  \/ (result run = Returned None
      /\ parsed_result (state run) = parsed_result st
      /\ parsed_description (state run) = parsed_description st).
Proof.
  intros Hcontent. unfold process_extraction_request. rewrite Hcontent.
  destruct (Chunker.dom_content_length content Chunker.default_max_length)
    as [chunks|e]; (destruct (truthy api_key); simpl; [|right; auto]);
    [|right; auto].
  destruct (chunking config).
  - right. unfold Engine.process_with_chunking. simpl.
    destruct (contains "gemini" (model config));
      [|destruct (contains "deepseek" (model config))]; simpl; auto.
  - destruct (Engine.process_with_nochunking T
                {| Engine.model := model config; Engine.api_key := api_key |}
                chunks parse_description (Engine.start (chat_history st)))
      as [[[[text h]|]|e] s] eqn:Hcall; simpl; [|right; auto..].
    left. eexists. split; [reflexivity|]. exists text.
    repeat split; auto.
    apply (EngineFacts.process_with_nochunking_own_history _ _ _ _ _ _ _ _ Hcall).
Qed.

Lemma request_on_content_witness :
  let run := process_extraction_request (EngineFacts.answering TableFacts.sample_table)
               {| chunking := false; model := "gemini-2.0-flash" |} "key"
               scraped_state "prices" in
  (exists table, result run = Returned (Some table)
     /\ exists text, parsed_result (state run) = Some text
          /\ table = Table.Result_to_dataframe text
          /\ parsed_description (state run) = Some "prices"
          /\ chat_history (state run) = Engine.history (engine run)
          /\ shown run = [UserMessage "prices"; ParsingComplete])
  \/ (result run = Returned None
      /\ parsed_result (state run) = parsed_result scraped_state
      /\ parsed_description (state run) = parsed_description scraped_state).
Proof.
  apply (request_on_content (EngineFacts.answering TableFacts.sample_table)
           {| chunking := false; model := "gemini-2.0-flash" |} "key"
           scraped_state "prices" "Price list: apples 3, pears 4").
  reflexivity.
Defined.

Example request_gives_table :
  result (process_extraction_request (EngineFacts.answering TableFacts.sample_table)
            {| chunking := false; model := "gemini-2.0-flash" |} "key"
            scraped_state "prices")
  = Returned (Some [[("a", "1"); ("b", "2")]; [("a", "3"); ("b", "4")]]).
Proof. vm_compute. reflexivity. Qed.

(** A request made before anything was scraped is a conversation: it never
    changes the session state.  With a Gemini model a failing model call
    escapes the application; with a DeepSeek model it is absorbed and an
    empty answer is shown; with any other model the call itself fails. *)
Theorem request_without_content (T : Engine.Transport) (config : ScrapingConfig)
  (api_key : string) (st : AppState) (parse_description : string) :
  dom_content st = None ->
  let run := process_extraction_request T config api_key st parse_description in
  let gemini_req :=
    Engine.GenerateContent (model config) Engine.conversational_instruction
                           (Engine.Prompt parse_description) false in
  let deepseek_req :=
    Engine.ChatCompletion (model config) api_key
      [Engine.Dict (Engine.ContentTurn "system" Engine.conversational_instruction);
       Engine.Dict (Engine.ContentTurn "user" parse_description)] false in
  state run = st
  /\ (result run, shown run) =
     if contains "gemini" (model config) then
       match Engine.whole_reply T 0 gemini_req with
       | Returned text =>
           (Returned None, [UserMessage parse_description; AssistantMessage text])
       | Raised e => (Raised e, [UserMessage parse_description])
       end
     else if contains "deepseek" (model config) then
       match Engine.whole_reply T 0 deepseek_req with
       | Returned text =>
           (Returned None, [UserMessage parse_description; AssistantMessage text])
       | Raised e =>
           (Returned None, [UserMessage parse_description; AssistantMessage ""])
       end
     else (Raised (TypeError "cannot unpack non-iterable NoneType object"),
           [UserMessage parse_description]).
Proof.
  intros Hcontent run gemini_req deepseek_req. subst run.
  unfold process_extraction_request. rewrite Hcontent.
  unfold Engine.process_with_nochunking. simpl.
  destruct (contains "gemini" (model config)).
  - unfold Engine.call_method, Engine.nochunk_with_gemini, Engine.call_whole,
      Engine.bind, Engine.record_call, Engine.default_history,
      Engine.return_with_history, Engine.get_history, Engine.bind, Engine.ret. simpl.
    fold gemini_req. destruct (Engine.whole_reply T 0 gemini_req); simpl; auto.
  - destruct (contains "deepseek" (model config)); [|simpl; auto].
    unfold Engine.call_method, Engine.nochunk_with_deepseek, Engine.try_except,
      Engine.call_whole, Engine.bind, Engine.record_call, Engine.default_history,
      Engine.return_with_history, Engine.get_history, Engine.bind, Engine.ret,
      Engine.st_error. simpl.
    fold deepseek_req. destruct (Engine.whole_reply T 0 deepseek_req); simpl; auto.
Qed.

Lemma request_without_content_witness :
  let st := {| dom_content := None; chat_history := Some [];
               parsed_result := None; parsed_description := None |} in
  let run := process_extraction_request EngineFacts.unreachable
               {| chunking := false; model := "gemini-2.0-flash" |} "key" st "hello" in
  state run = st
  /\ (result run, shown run)
     = (Raised (ExternalError "503 unavailable"), [UserMessage "hello"]).
Proof.
  apply (request_without_content EngineFacts.unreachable
           {| chunking := false; model := "gemini-2.0-flash" |} "key"
           {| dom_content := None; chat_history := Some [];
              parsed_result := None; parsed_description := None |} "hello").
  reflexivity.
Defined.

End AppFacts.
